(** * AgenticDataAnalyzer: the validation engine and the question-answering
      pipeline of [utils_agentic.py], and the issue summary of [app02.py].

    The development embeds the Python code shallowly.

    - Cells of the customer table are Python objects: an absent marker
      ([None], [pd.NA]), a string, or a number.  Numbers are IEEE binary64
      values, as in Python and NumPy, and are modelled by Rocq's primitive
      floats, so that [nan] is a number for which [pd.isna] holds.
    - Code that can raise returns an [outcome]; [try]/[except] is a match on it.
    - The pandas and sqlite3 functions whose precise behaviour the code does not
      fix (rendering a number as text, parsing a date, running a query, calling
      the language model) are parameters of the definitions that use them. *)

From Stdlib Require Import Floats ZArith Ascii String.
From stdpp Require Import base option list gmap sets strings pretty.

Local Open Scope string_scope.

(** ** Python objects held by the cells of the table *)

Inductive value : Type :=
  | NA                    (* None, pd.NA *)
  | Str (s : string)
  | Num (x : float).      (* int64 and float64 cells; nan included *)

(** [pd.isna] on a scalar. *)
Definition isna (v : value) : bool :=
  match v with
  | NA => true
  | Str _ => false
  | Num x => PrimFloat.is_nan x
  end.

(** ** Exceptions *)

Inductive exn : Type := TypeError | ValueError | KeyError | OtherError.

Inductive outcome (A : Type) : Type :=
  | Ret (a : A)
  | Raise (e : exn)
  | Diverge.              (* a [while] loop that ran out of fuel *)
Arguments Ret {A} a.
Arguments Raise {A} e.
Arguments Diverge {A}.

Definition bind {A B : Type} (k : A -> outcome B) (m : outcome A) : outcome B :=
  match m with
  | Ret a => k a
  | Raise e => Raise e
  | Diverge => Diverge
  end.

(** [x ← m; k] sequences two statements, the first of which can raise. *)
#[global] Instance outcome_bind : MBind outcome := @bind.

(** [try: m except Exception: h]. *)
Definition try_except {A : Type} (m : outcome A) (h : exn -> outcome A) : outcome A :=
  match m with
  | Raise e => h e
  | other => other
  end.

(** ** Comparisons of a cell with a number

    [v < y] and [v > y] for a Python object [v] and a float [y].  A string on
    the left raises [TypeError]; [nan] compares false.  The absent marker is
    only compared in the code after [pd.isna] has been ruled out or when the
    column is numeric, where it stands for [nan]. *)

Definition py_lt (v : value) (y : float) : outcome bool :=
  match v with
  | NA => Ret false
  | Str _ => Raise TypeError
  | Num x => Ret (PrimFloat.ltb x y)
  end.

Definition py_gt (v : value) (y : float) : outcome bool :=
  match v with
  | NA => Ret false
  | Str _ => Raise TypeError
  | Num x => Ret (PrimFloat.ltb y x)
  end.

(** ** Text helpers *)

(** [sep.join(items)]. *)
Fixpoint join (sep : string) (items : list string) : string :=
  match items with
  | [] => ""
  | [s] => s
  | s :: rest => s +:+ sep +:+ join sep rest
  end.

(** [f"AUTO-{n}"]. *)
Definition auto_id (n : N) : string := "AUTO-" +:+ pretty n.

(** Conversion of a row count to a float, exact below 2^53. *)
Definition float_of_nat (n : nat) : float :=
  PrimFloat.of_uint63 (Uint63.of_Z (Z.of_nat n)).

(** [f"{x:.1f}"]: the decimal with one digit after the point nearest to the
    exact binary value of [x], ties to even. *)
Definition tenths (m : positive) (e : Z) : Z :=
  let num := (Z.pos m * 10)%Z in
  if (0 <=? e)%Z then (num * 2 ^ e)%Z
  else
    let den := (2 ^ (- e))%Z in
    let q := (num / den)%Z in
    let r := (num mod den)%Z in
    match (2 * r ?= den)%Z with
    | Lt => q
    | Gt => (q + 1)%Z
    | Eq => if Z.even q then q else (q + 1)%Z
    end.

Definition format_1f (x : float) : string :=
  match FloatOps.Prim2SF x with
  | SpecFloat.S754_nan => "nan"
  | SpecFloat.S754_infinity s => if s then "-inf" else "inf"
  | SpecFloat.S754_zero s => if s then "-0.0" else "0.0"
  | SpecFloat.S754_finite s m e =>
      let t := tenths m e in
      (if s then "-" else "") +:+ pretty (t / 10)%Z +:+ "." +:+ pretty (t mod 10)%Z
  end.

(** ** The table *)

(** A row of the frame once the column names are normalised and the expected
    columns exist (lines 35-39): a column that was missing holds [NA] in every
    row.  [validation_issues] and [fix_suggestions] are the two derived columns;
    the validator writes them and never reads them. *)
Record Row : Type := mkRow {
  customer_id : value;
  name : value;
  surname : value;
  gender : value;
  age : value;
  region : value;
  job_classification : value;
  date_joined : value;
  balance : value;
  validation_issues : value;
  fix_suggestions : value
}.

Definition set_customer_id (v : value) (r : Row) : Row :=
  mkRow v (name r) (surname r) (gender r) (age r) (region r)
        (job_classification r) (date_joined r) (balance r)
        (validation_issues r) (fix_suggestions r).
Definition set_name (v : value) (r : Row) : Row :=
  mkRow (customer_id r) v (surname r) (gender r) (age r) (region r)
        (job_classification r) (date_joined r) (balance r)
        (validation_issues r) (fix_suggestions r).
Definition set_surname (v : value) (r : Row) : Row :=
  mkRow (customer_id r) (name r) v (gender r) (age r) (region r)
        (job_classification r) (date_joined r) (balance r)
        (validation_issues r) (fix_suggestions r).
Definition set_gender (v : value) (r : Row) : Row :=
  mkRow (customer_id r) (name r) (surname r) v (age r) (region r)
        (job_classification r) (date_joined r) (balance r)
        (validation_issues r) (fix_suggestions r).
Definition set_age (v : value) (r : Row) : Row :=
  mkRow (customer_id r) (name r) (surname r) (gender r) v (region r)
        (job_classification r) (date_joined r) (balance r)
        (validation_issues r) (fix_suggestions r).
Definition set_region (v : value) (r : Row) : Row :=
  mkRow (customer_id r) (name r) (surname r) (gender r) (age r) v
        (job_classification r) (date_joined r) (balance r)
        (validation_issues r) (fix_suggestions r).
Definition set_job_classification (v : value) (r : Row) : Row :=
  mkRow (customer_id r) (name r) (surname r) (gender r) (age r) (region r)
        v (date_joined r) (balance r)
        (validation_issues r) (fix_suggestions r).
Definition set_date_joined (v : value) (r : Row) : Row :=
  mkRow (customer_id r) (name r) (surname r) (gender r) (age r) (region r)
        (job_classification r) v (balance r)
        (validation_issues r) (fix_suggestions r).
Definition set_balance (v : value) (r : Row) : Row :=
  mkRow (customer_id r) (name r) (surname r) (gender r) (age r) (region r)
        (job_classification r) (date_joined r) v
        (validation_issues r) (fix_suggestions r).
Definition set_derived (vi fs : value) (r : Row) : Row :=
  mkRow (customer_id r) (name r) (surname r) (gender r) (age r) (region r)
        (job_classification r) (date_joined r) (balance r) vi fs.

(** The dtype of a column; integer columns behave as [float64] here. *)
Inductive dtype : Type := float64 | object.

(** [pd.api.types.is_numeric_dtype]. *)
Definition is_numeric_dtype (d : dtype) : bool :=
  match d with float64 => true | object => false end.

Record DataFrame : Type := mkFrame {
  balance_dtype : dtype;
  rows : list Row
}.

(** [df.at[i, col] = v], with [put] the setter of the column. *)
Definition at_set (i : nat) (put : Row -> Row) (df : list Row) : list Row :=
  alter put i df.

(** ** Column statistics *)

(** [Series.mean()] comes down to [nanops.nanmean]: the absent cells are
    masked and their place is filled with 0, the filled column is summed by
    [ndarray.sum], and the sum is divided by the number of present cells; a
    column without present cells has mean [nan]. *)

Definition is_text (v : value) : bool :=
  match v with
  | Str _ => true
  | _ => false
  end.

(** The place of a cell in the sum: 0 for an absent cell. *)
Definition filled (v : value) : float :=
  match v with
  | Num x => if PrimFloat.is_nan x then 0%float else x
  | _ => 0%float
  end.

(** [res += a[i]] down the numbers [a]. *)
Definition add_in_order (a : list float) (res : float) : float :=
  foldl PrimFloat.add res a.

(** NumPy sums a [float64] column with [pairwise_sum], in three regimes.
    Fewer than eight numbers are added in order, from [-0.0].  Earlier
    versions of NumPy start from [0.0], which changes the sum only when every
    number is [-0.0]. *)
Definition PW_BLOCKSIZE : nat := 128.

(** From eight to [PW_BLOCKSIZE] numbers: eight running sums [r] start as
    the first eight numbers and take the following groups of eight, place by
    place ([r[j] += a[i + j]]); [groups] is the number of groups left. *)
Fixpoint add_groups (groups : nat) (r a : list float) : list float * list float :=
  match groups with
  | 0 => (r, a)
  | S groups' =>
      add_groups groups' (zip_with PrimFloat.add r (take 8 a)) (drop 8 a)
  end.

(** The running sums are then added two by two, and the numbers after the
    last full group of eight are added to that in order. *)
Definition unrolled_sum (a : list float) : float :=
  let '(r, rest) := add_groups (length a / 8 - 1)%nat (take 8 a) (drop 8 a) in
  let r0 := nth 0 r 0%float in
  let r1 := nth 1 r 0%float in
  let r2 := nth 2 r 0%float in
  let r3 := nth 3 r 0%float in
  let r4 := nth 4 r 0%float in
  let r5 := nth 5 r 0%float in
  let r6 := nth 6 r 0%float in
  let r7 := nth 7 r 0%float in
  add_in_order rest (((r0 + r1) + (r2 + r3)) + ((r4 + r5) + (r6 + r7)))%float.

(** More than [PW_BLOCKSIZE] numbers are split in two, the first part of a
    length that is a multiple of eight, and the sums of the two parts are
    added.  [fuel] bounds the depth of the recursion; the length of [a] is
    enough. *)
Fixpoint pairwise_sum (fuel : nat) (a : list float) : outcome float :=
  let n := length a in
  if (n <? 8)%nat then Ret (add_in_order a PrimFloat.neg_zero)
  else if (n <=? PW_BLOCKSIZE)%nat then Ret (unrolled_sum a)
  else
    match fuel with
    | 0 => Diverge
    | S fuel' =>
        let n2 := (n / 2 - (n / 2) mod 8)%nat in
        sum1 ← pairwise_sum fuel' (take n2 a);
        sum2 ← pairwise_sum fuel' (drop n2 a);
        Ret (sum1 + sum2)%float
    end.

(** [values.sum()] on the filled column.  A column that holds a text is an
    [object] column, in which adding a text and a number raises [TypeError].
    A column of numbers and absent cells is a [float64] column, or, when line
    39 created it, an [object] column of absent cells, whose sum is 0 in any
    order.  The reduction adds the pairwise sum to its initial value. *)
Definition nansum (cells : list value) : outcome float :=
  if existsb is_text cells then Raise TypeError
  else
    the_sum ← pairwise_sum (length cells) (map filled cells);
    Ret (PrimFloat.neg_zero + the_sum)%float.

Definition mean (cells : list value) : outcome float :=
  let count := length (filter (fun v => isna v = false) cells) in
  the_sum ← nansum cells;
  Ret (match count with
       | 0 => PrimFloat.nan
       | S _ => (the_sum / float_of_nat count)%float
       end).

(** The present numbers of a numeric column. *)
Fixpoint dropna (cells : list value) : list float :=
  match cells with
  | [] => []
  | Num x :: rest => if PrimFloat.is_nan x then dropna rest else x :: dropna rest
  | _ :: rest => dropna rest
  end.

Fixpoint insert_sorted (x : float) (l : list float) : list float :=
  match l with
  | [] => [x]
  | y :: rest => if (x <=? y)%float then x :: l else y :: insert_sorted x rest
  end.

Definition sort_floats (l : list float) : list float :=
  foldr insert_sorted [] l.

(** The largest [k < n] with [k <= v], for [0 <= v]. *)
Definition floor_index (n : nat) (v : float) : nat :=
  length (filter (fun k => (float_of_nat k <=? v)%float = true) (seq 1 (n - 1))).

(** NumPy's linear interpolation between two neighbours. *)
Definition lerp (a b t : float) : float :=
  let diff_b_a := (b - a)%float in
  if (0.5 <=? t)%float then (b - diff_b_a * (1 - t))%float
  else (a + diff_b_a * t)%float.

(** [Series.quantile(q)] with the default linear interpolation. *)
Definition quantile (q : float) (cells : list value) : float :=
  let sorted := sort_floats (dropna cells) in
  let n := length sorted in
  match n with
  | 0 => PrimFloat.nan
  | S _ =>
      let virtual_index := (float_of_nat (n - 1) * q)%float in
      let previous := floor_index n virtual_index in
      let next := Nat.min (S previous) (n - 1) in
      let gamma := (virtual_index - float_of_nat previous)%float in
      lerp (nth previous sorted 0%float) (nth next sorted 0%float) gamma
  end.

(** Truth value of [balance_thresh] in [if balance_thresh and ...]: [None] and
    zero are false, every other float (nan included) is true. *)
Definition truthy (balance_thresh : option float) : bool :=
  match balance_thresh with
  | None => false
  | Some t => negb (t =? 0)%float
  end.

(** ** The graph state *)

Inductive Status : Type := OK | FAILED.

(** The result of a query: column names and rows; [pd.DataFrame()] is empty. *)
Record Table : Type := mkTable {
  columns : list string;
  data : list (list value)
}.

Definition empty_table : Table := mkTable [] [].

(** [GraphState] is a [TypedDict]: a key may be missing from a state. *)
Record GraphState : Type := mkGraphState {
  df_raw : option DataFrame;
  df_validated : option DataFrame;
  question : option string;
  sql : option string;
  result : option Table;
  status : option Status
}.

(** [state[key]]. *)
Definition getitem {A : Type} (field : option A) : outcome A :=
  match field with
  | Some a => Ret a
  | None => Raise KeyError
  end.

(** ** Agent 1: validation and cleaning ([validate_data]) *)

(** The state of the loop over the rows: the frame being repaired, the ids
    in use, the counter of generated ids, and the notes of the current row. *)
Record Env : Type := mkEnv {
  df : list Row;
  existing_ids : gset string;
  auto_id_counter : N;
  row_issues : list string;
  row_fixes : list string
}.

(** [df.at[i, col] = v; row_issues.append(...); row_fixes.append(...)]. *)
Definition repair (i : nat) (put : Row -> Row) (issue_text fix_text : string) (e : Env)
  : Env :=
  mkEnv (at_set i put (df e)) (existing_ids e) (auto_id_counter e)
        (row_issues e ++ [issue_text]) (row_fixes e ++ [fix_text]).

(** [row_issues.append(...)] alone. *)
Definition flag (issue_text : string) (e : Env) : Env :=
  mkEnv (df e) (existing_ids e) (auto_id_counter e)
        (row_issues e ++ [issue_text]) (row_fixes e).

(** Lines 49-52: [while new_id in existing_ids: auto_id_counter += 1]; the
    counter at which the loop stops, if it stops within [fuel] tests. *)
Fixpoint next_free (fuel : nat) (ids : gset string) (counter : N) : option N :=
  match fuel with
  | 0 => None
  | S fuel' =>
      if decide (auto_id counter ∈ ids) then next_free fuel' ids (counter + 1)%N
      else Some counter
  end.

Section Validator.

(** [str(x)] for a numeric cell, as [astype(str)] renders it. *)
Variable str_of_num : float -> string.

(** Whether [pd.to_datetime(v, format="%d.%b.%y")] returns without raising. *)
Variable to_datetime_ok : value -> bool.

(** [set(df['customer_id'].dropna().astype(str))]. *)
Fixpoint ids_of (cells : list value) : gset string :=
  match cells with
  | [] => ∅
  | v :: rest =>
      if isna v then ids_of rest
      else match v with
           | Str s => {[ s ]} ∪ ids_of rest
           | Num x => {[ str_of_num x ]} ∪ ids_of rest
           | NA => ids_of rest
           end
  end.

(** Lines 48-57. *)
Definition check_customer_id (i : nat) (row : Row) (e : Env) : outcome Env :=
  if isna (customer_id row) then
    match next_free (S (size (existing_ids e))) (existing_ids e) (auto_id_counter e) with
    | None => Diverge
    | Some n =>
        let new_id := auto_id n in
        Ret (mkEnv (at_set i (set_customer_id (Str new_id)) (df e))
                   ({[ new_id ]} ∪ existing_ids e)
                   (n + 1)%N
                   (row_issues e ++ ["Missing customer_id"])
                   (row_fixes e ++ ["Auto-generated ID: " +:+ new_id]))
    end
  else Ret e.

(** Lines 59-82. *)
Definition check_name (i : nat) (row : Row) (e : Env) : Env :=
  if isna (name row) then
    repair i (set_name (Str "Unknown")) "Missing name" "Filled name with 'Unknown'" e
  else e.

Definition check_surname (i : nat) (row : Row) (e : Env) : Env :=
  if isna (surname row) then
    repair i (set_surname (Str "Unknown")) "Missing surname"
           "Filled surname with 'Unknown'" e
  else e.

Definition check_gender (i : nat) (row : Row) (e : Env) : Env :=
  if isna (gender row) then
    repair i (set_gender (Str "Not Specified")) "Missing gender"
           "Filled gender with 'Not Specified'" e
  else e.

Definition check_region (i : nat) (row : Row) (e : Env) : Env :=
  if isna (region row) then
    repair i (set_region (Str "Unknown")) "Missing region"
           "Filled region with 'Unknown'" e
  else e.

Definition check_job_classification (i : nat) (row : Row) (e : Env) : Env :=
  if isna (job_classification row) then
    repair i (set_job_classification (Str "Other")) "Missing job_classification"
           "Filled job_classification with 'Other'" e
  else e.

(** Lines 84-88: the mean is taken over the age column of the frame as it
    stands when the row is reached. *)
Definition check_age (i : nat) (row : Row) (e : Env) : outcome Env :=
  if isna (age row) then
    avg_age ← mean (map age (df e));
    Ret (repair i (set_age (Num avg_age)) "Missing age"
                ("Filled age with average age " +:+ format_1f avg_age) e)
  else Ret e.

(** Lines 90-93: [pd.isna(row['balance']) or row['balance'] < 0]. *)
Definition check_balance (i : nat) (row : Row) (e : Env) : outcome Env :=
  bad ← (if isna (balance row) then Ret true else py_lt (balance row) 0%float);
  Ret (if bad : bool then
         repair i (set_balance (Num 0%float)) "Missing or negative balance"
                "Filled balance with 0" e
       else e).

(** Lines 95-100: the bare [except] catches whatever the parser raises. *)
Definition check_date_joined (i : nat) (row : Row) (e : Env) : Env :=
  if to_datetime_ok (date_joined row) then e
  else repair i (set_date_joined (Str "01.Jan.00")) "Bad date format"
              "Filled with default date 01.Jan.00" e.

(** Lines 102-103: [if balance_thresh and row['balance'] > balance_thresh]. *)
Definition check_outlier (balance_thresh : option float) (row : Row) (e : Env)
  : outcome Env :=
  match balance_thresh with
  | Some t =>
      if truthy balance_thresh then
        above ← py_gt (balance row) t;
        Ret (if above : bool then flag "Outlier in balance" e else e)
      else Ret e
  | None => Ret e
  end.

(** The body of the loop for row [i]; [row] is the row as [iterrows]
    yields it, that is, as it was when the loop started. *)
Definition row_body (balance_thresh : option float) (i : nat) (row : Row) (e : Env)
  : outcome Env :=
  let e := mkEnv (df e) (existing_ids e) (auto_id_counter e) [] [] in
  e ← check_customer_id i row e;
  let e := check_name i row e in
  let e := check_surname i row e in
  let e := check_gender i row e in
  let e := check_region i row e in
  let e := check_job_classification i row e in
  e ← check_age i row e;
  e ← check_balance i row e;
  let e := check_date_joined i row e in
  check_outlier balance_thresh row e.

(** [for i, row in df.iterrows(): ...], with the two lists of joined notes. *)
Fixpoint iterrows (balance_thresh : option float) (snapshot : list Row) (i : nat)
         (e : Env) (issues fixes : list string)
  : outcome (Env * list string * list string) :=
  match snapshot with
  | [] => Ret (e, issues, fixes)
  | row :: rest =>
      e' ← row_body balance_thresh i row e;
      iterrows balance_thresh rest (S i) e'
               (issues ++ [join "; " (row_issues e')])
               (fixes ++ [join "; " (row_fixes e')])
  end.

(** [df['validation_issues'] = issues; df['fix_suggestions'] = fixes]. *)
Definition assign_derived (df : list Row) (issues fixes : list string) : list Row :=
  zip_with (fun r notes => set_derived (Str notes.1) (Str notes.2) r)
           df (zip issues fixes).

(** The frame computed by [validate_data] from the raw frame. *)
Definition validate_frame (raw : DataFrame) : outcome DataFrame :=
  let balance_thresh :=
    if is_numeric_dtype (balance_dtype raw)
    then Some (quantile 0x1.fae147ae147aep-1%float  (* 0.99 *)
                        (map balance (rows raw)))
    else None in
  let existing_ids := ids_of (map customer_id (rows raw)) in
  let auto_id_counter := 100001%N in
  '(e, issues, fixes) ←
    iterrows balance_thresh (rows raw) 0
             (mkEnv (rows raw) existing_ids auto_id_counter [] []) [] [];
  Ret (mkFrame (balance_dtype raw) (assign_derived (df e) issues fixes)).

Definition validate_data (state : GraphState) : outcome GraphState :=
  raw ← getitem (df_raw state);
  df ← validate_frame raw;
  Ret (mkGraphState (Some df) (Some df) None None None (Some OK)).

End Validator.

(** ** Text operations of the question-answering pipeline and of the summary

    Texts are strings of 8-bit characters; case conversion and white space are
    those of ASCII. *)

Definition is_upper (c : ascii) : bool :=
  (65 <=? nat_of_ascii c)%nat && (nat_of_ascii c <=? 90)%nat.

Definition is_lower (c : ascii) : bool :=
  (97 <=? nat_of_ascii c)%nat && (nat_of_ascii c <=? 122)%nat.

Definition lower_char (c : ascii) : ascii :=
  if is_upper c then ascii_of_nat (nat_of_ascii c + 32) else c.

Definition upper_char (c : ascii) : ascii :=
  if is_lower c then ascii_of_nat (nat_of_ascii c - 32) else c.

(** [s.lower()]. *)
Fixpoint lower (s : string) : string :=
  match s with
  | EmptyString => EmptyString
  | String c rest => String (lower_char c) (lower rest)
  end.

(** [c.isspace()]: tab, line feed, vertical tab, form feed, carriage return,
    the four separators 28-31, and the space. *)
Definition is_space (c : ascii) : bool :=
  let n := nat_of_ascii c in
  ((9 <=? n)%nat && (n <=? 13)%nat) || ((28 <=? n)%nat && (n <=? 32)%nat).

Fixpoint lstrip (s : string) : string :=
  match s with
  | EmptyString => EmptyString
  | String c rest => if is_space c then lstrip rest else s
  end.

Fixpoint rstrip (s : string) : string :=
  match s with
  | EmptyString => EmptyString
  | String c rest =>
      match rstrip rest with
      | EmptyString => if is_space c then EmptyString else String c EmptyString
      | kept => String c kept
      end
  end.

(** [s.strip()]. *)
Definition strip (s : string) : string := rstrip (lstrip s).

(** [needle in hay]. *)
Fixpoint contains (needle hay : string) : bool :=
  String.prefix needle hay ||
  match hay with
  | EmptyString => false
  | String _ rest => contains needle rest
  end.

(** ** Agent 3: SQL generation ([run_llm_sql]) *)

(** The keyword of the pattern matched at the head of [s] without regard to
    case: the matched characters and what follows them. *)
Fixpoint match_keyword (keyword s : string) : option (string * string) :=
  match keyword, s with
  | EmptyString, _ => Some (EmptyString, s)
  | String k keyword', String c s' =>
      if Ascii.eqb (lower_char k) (lower_char c) then
        match match_keyword keyword' s' with
        | Some (matched, rest) => Some (String c matched, rest)
        | None => None
        end
      else None
  | String _ _, EmptyString => None
  end.

(** The characters of [s] before its first semicolon, if it has one. *)
Fixpoint until_semicolon (s : string) : option string :=
  match s with
  | EmptyString => None
  | String c rest =>
      if Ascii.eqb c ";" then Some EmptyString
      else match until_semicolon rest with
           | Some body => Some (String c body)
           | None => None
           end
  end.

(** [[\s\S]+?] followed by [;]: one character of any kind, then as few more
    as lead to a semicolon. *)
Definition lazy_any_then_semicolon (s : string) : option string :=
  match s with
  | EmptyString => None
  | String c rest =>
      match until_semicolon rest with
      | Some body => Some (String c body)
      | None => None
      end
  end.

(** The pattern [(SELECT[\s\S]+?);] anchored at the head of [s]: group 1. *)
Definition match_at (s : string) : option string :=
  match match_keyword "SELECT" s with
  | Some (matched, rest) =>
      match lazy_any_then_semicolon rest with
      | Some body => Some (matched +:+ body)
      | None => None
      end
  | None => None
  end.

(** [re.search(r"(SELECT[\s\S]+?);", text, re.IGNORECASE)]: the match at the
    leftmost position that has one; the value is group 1. *)
Fixpoint re_search (text : string) : option string :=
  match match_at text with
  | Some group1 => Some group1
  | None =>
      match text with
      | EmptyString => None
      | String _ rest => re_search rest
      end
  end.

(** Lines 144-147. *)
Definition extract_sql (response_text : string) : string :=
  let generated_text := strip response_text in
  match re_search generated_text with
  | Some group1 => group1 +:+ ";"
  | None => ""
  end.

Definition dquote : string := String "034"%char EmptyString.
Definition newline : string := String "010"%char EmptyString.

(** Lines 128-142. *)
Definition prompt_of (columns : list string) (question : string) : string :=
  newline +:+
  "Given a table named 'customers' with columns: " +:+ join ", " columns +:+ "." +:+ newline +:+
  newline +:+
  "Note: " +:+ dquote +:+ "age_group" +:+ dquote +:+
    " is not a column but can be derived using:" +:+ newline +:+
  "CASE " +:+ newline +:+
  "  WHEN age < 30 THEN 'Young'" +:+ newline +:+
  "  WHEN age < 60 THEN 'Middle-aged'" +:+ newline +:+
  "  ELSE 'Senior'" +:+ newline +:+
  "END AS age_group." +:+ newline +:+
  newline +:+
  "Convert the following natural language question into a valid SQLite SQL query using this logic if needed." +:+ newline +:+
  "Only return the SQL." +:+ newline +:+
  "Question: " +:+ question +:+ newline +:+
  "SQL:" +:+ newline.

(** The collaborators of the pipeline: the store ([sqlite3] through pandas)
    and the language model.  Each call returns or raises. *)
Record World : Type := mkWorld {
  connect : outcome unit;                       (* sqlite3.connect("bank_customer.db") *)
  read_sql : string -> outcome Table;           (* pd.read_sql(sql, conn) *)
  generate_content : string -> outcome string   (* gemini_model.generate_content(prompt).text *)
}.

Definition run_llm_sql (w : World) (state : GraphState) : outcome GraphState :=
  try_except
    (_ ← connect w;
     head ← read_sql w "SELECT * FROM customers LIMIT 1";
     let columns := columns head in
     question_text ← getitem (question state);
     let prompt := prompt_of columns question_text in
     response_text ← generate_content w prompt;
     let sql_text := extract_sql response_text in
     Ret (mkGraphState (df_raw state) (df_validated state) (question state)
                       (Some sql_text) (result state) (status state)))
    (fun _ =>
       Ret (mkGraphState (df_raw state) (df_validated state) (question state)
                         (Some "") (result state) (Some FAILED))).

(** ** Agent 4: SQL execution ([execute_sql]) *)

Definition execute_sql (w : World) (state : GraphState) : outcome GraphState :=
  try_except
    (_ ← connect w;
     sql_text ← getitem (sql state);
     df_result ← read_sql w sql_text;
     Ret (mkGraphState (df_raw state) (df_validated state) (question state)
                       (sql state) (Some df_result) (Some OK)))
    (fun _ =>
       Ret (mkGraphState (df_raw state) (df_validated state) (question state)
                         (sql state) (Some empty_table) (Some FAILED))).

(** ** The issue summary of the application ([app02.py], lines 54-84) *)

(** Lines 61-81: the column an issue is counted under. *)
Definition issue_col (issue : string) : string :=
  let issue_lower := lower issue in
  if contains "customer_id" issue_lower then "customer_id"
  else if contains "name" issue_lower then "name"
  else if contains "surname" issue_lower then "surname"
  else if contains "gender" issue_lower then "gender"
  else if contains "age" issue_lower then "age"
  else if contains "region" issue_lower then "region"
  else if contains "job_classification" issue_lower then "job_classification"
  else if contains "date" issue_lower then "date_joined"
  else if contains "balance" issue_lower then "balance"
  else "unknown".

(** [val.split(";")]. *)
Fixpoint split_semicolon (s : string) : list string :=
  match s with
  | EmptyString => [EmptyString]
  | String c rest =>
      if Ascii.eqb c ";" then EmptyString :: split_semicolon rest
      else match split_semicolon rest with
           | piece :: pieces => String c piece :: pieces
           | [] => [String c EmptyString]
           end
  end.

(** [issue.split()[0]] for a stripped, non-empty issue. *)
Fixpoint first_word (s : string) : string :=
  match s with
  | EmptyString => EmptyString
  | String c rest => if is_space c then EmptyString else String c (first_word rest)
  end.

(** [word.capitalize()]. *)
Definition capitalize (s : string) : string :=
  match s with
  | EmptyString => EmptyString
  | String c rest => String (upper_char c) (lower rest)
  end.

(** [issue_tracker[col][issue_type] += 1] on a [defaultdict] of
    [defaultdict(int)]. *)
Definition count_issue (col issue_type : string)
           (issue_tracker : gmap string (gmap string nat))
  : gmap string (gmap string nat) :=
  let bucket := default ∅ (issue_tracker !! col) in
  <[ col := <[ issue_type := S (default 0 (bucket !! issue_type)) ]> bucket ]>
    issue_tracker.

(** Lines 56-84 for one piece of a cell. *)
Definition track_issue (piece : string)
           (issue_tracker : gmap string (gmap string nat))
  : gmap string (gmap string nat) :=
  let issue := strip piece in
  match issue with
  | EmptyString => issue_tracker
  | String _ _ =>
      count_issue (issue_col issue) (capitalize (first_word issue)) issue_tracker
  end.

(** Lines 54-84: the loop over the cells of [validation_issues]. *)
Definition track_val (val : string)
           (issue_tracker : gmap string (gmap string nat))
  : gmap string (gmap string nat) :=
  match val with
  | EmptyString => issue_tracker
  | String _ _ => foldl (fun t piece => track_issue piece t) issue_tracker
                        (split_semicolon val)
  end.

Definition track_all (issue_summary : list string)
  : gmap string (gmap string nat) :=
  foldl (fun t val => track_val val t) ∅ issue_summary.

(** ** The net effect of one iteration of the loop

    What the body of the loop does to row [i] and which notes it leaves,
    given the id it generated, the mean it computed and the outcome of its two
    tests on the balance.  The lemmas about the loop are stated with these. *)

Definition row_effect (to_datetime_ok : value -> bool) (row : Row)
           (new_id : string) (avg_age : float) (bad_balance : bool) (r : Row) : Row :=
  mkRow (if isna (customer_id row) then Str new_id else customer_id r)
        (if isna (name row) then Str "Unknown" else name r)
        (if isna (surname row) then Str "Unknown" else surname r)
        (if isna (gender row) then Str "Not Specified" else gender r)
        (if isna (age row) then Num avg_age else age r)
        (if isna (region row) then Str "Unknown" else region r)
        (if isna (job_classification row) then Str "Other" else job_classification r)
        (if to_datetime_ok (date_joined row) then date_joined r else Str "01.Jan.00")
        (if bad_balance then Num 0%float else balance r)
        (validation_issues r) (fix_suggestions r).

Definition when (b : bool) (note : string) : list string :=
  if b then [note] else [].

Definition issues_of (to_datetime_ok : value -> bool) (row : Row)
           (bad_balance above : bool) : list string :=
  when (isna (customer_id row)) "Missing customer_id" ++
  when (isna (name row)) "Missing name" ++
  when (isna (surname row)) "Missing surname" ++
  when (isna (gender row)) "Missing gender" ++
  when (isna (region row)) "Missing region" ++
  when (isna (job_classification row)) "Missing job_classification" ++
  when (isna (age row)) "Missing age" ++
  when bad_balance "Missing or negative balance" ++
  when (negb (to_datetime_ok (date_joined row))) "Bad date format" ++
  when above "Outlier in balance".

Definition fixes_of (to_datetime_ok : value -> bool) (row : Row)
           (new_id : string) (avg_age : float) (bad_balance : bool) : list string :=
  when (isna (customer_id row)) ("Auto-generated ID: " +:+ new_id) ++
  when (isna (name row)) "Filled name with 'Unknown'" ++
  when (isna (surname row)) "Filled surname with 'Unknown'" ++
  when (isna (gender row)) "Filled gender with 'Not Specified'" ++
  when (isna (region row)) "Filled region with 'Unknown'" ++
  when (isna (job_classification row)) "Filled job_classification with 'Other'" ++
  when (isna (age row)) ("Filled age with average age " +:+ format_1f avg_age) ++
  when bad_balance "Filled balance with 0" ++
  when (negb (to_datetime_ok (date_joined row))) "Filled with default date 01.Jan.00".

(** The test of lines 90: [pd.isna(b) or b < 0]. *)
Definition balance_is_bad (b : value) : outcome bool :=
  if isna b then Ret true else py_lt b 0%float.

(** The test of line 102: [balance_thresh and b > balance_thresh]. *)
Definition balance_is_outlier (balance_thresh : option float) (b : value) : outcome bool :=
  match balance_thresh with
  | Some t => if truthy balance_thresh then py_gt b t else Ret false
  | None => Ret false
  end.

(** The state of the loop when row [i] of the frame [raw] is reached, for a
    loop started in the state [e0]. *)
Inductive reaches (to_datetime_ok : value -> bool) (balance_thresh : option float)
          (raw : list Row) (e0 : Env) : nat -> Env -> Prop :=
  | reaches_start : reaches to_datetime_ok balance_thresh raw e0 0 e0
  | reaches_next i row e e' :
      reaches to_datetime_ok balance_thresh raw e0 i e ->
      raw !! i = Some row ->
      row_body to_datetime_ok balance_thresh i row e = Ret e' ->
      reaches to_datetime_ok balance_thresh raw e0 (S i) e'.

(** The threshold and the ids computed before the loop (lines 41-43). *)
Definition threshold_of (raw : DataFrame) : option float :=
  if is_numeric_dtype (balance_dtype raw)
  then Some (quantile 0x1.fae147ae147aep-1%float (map balance (rows raw)))
  else None.

Definition initial_env (str_of_num : float -> string) (raw : DataFrame) : Env :=
  mkEnv (rows raw) (ids_of str_of_num (map customer_id (rows raw))) 100001%N [] [].

(** Row [j] of [df] had no id in the raw frame and holds [v] now. *)
Definition generated_at (raw : DataFrame) (df : list Row) (j : nat) (v : value) : Prop :=
  exists rj r, rows raw !! j = Some rj /\ isna (customer_id rj) = true
               /\ df !! j = Some r /\ customer_id r = v.

(** A cell that is not a text. *)
Definition not_text (v : value) : Prop :=
  match v with Str _ => False | _ => True end.

(** ** Reference points for the extraction of the SQL statement *)

(** The leftmost place of [text] at which the keyword matches, case ignored:
    the matched characters and what follows them. *)
Fixpoint find_keyword (keyword text : string) : option (string * string) :=
  match match_keyword keyword text with
  | Some found => Some found
  | None =>
      match text with
      | EmptyString => None
      | String _ rest => find_keyword keyword rest
      end
  end.

(** The extraction as the specification words it: from the first [SELECT]
    keyword, case ignored, to the next semicolon, with a semicolon appended;
    the empty string when there is no such substring. *)
Definition spec_extract_sql (text : string) : string :=
  match find_keyword "SELECT" text with
  | Some (matched, rest) =>
      match until_semicolon rest with
      | Some body => matched +:+ body +:+ ";"
      | None => ""
      end
  | None => ""
  end.

(** Whether [s] has a semicolon at index [n] or later. *)
Fixpoint semicolon_from (n : nat) (s : string) : bool :=
  match n, s with
  | 0, _ => match until_semicolon s with Some _ => true | None => false end
  | S n', String _ rest => semicolon_from n' rest
  | S _, EmptyString => false
  end.

(** The calls of the [try] block of [run_llm_sql] up to the reply of the
    model. *)
Definition model_reply (w : World) (state : GraphState) : outcome string :=
  _ ← connect w;
  head ← read_sql w "SELECT * FROM customers LIMIT 1";
  question_text ← getitem (question state);
  generate_content w (prompt_of (columns head) question_text).

(** The calls of the [try] block of [execute_sql] up to the result table. *)
Definition query_result (w : World) (state : GraphState) : outcome Table :=
  _ ← connect w;
  sql_text ← getitem (sql state);
  read_sql w sql_text.

(** [{**state, "sql": s}] and the two other updates of the state. *)
Definition with_sql (s : string) (state : GraphState) : GraphState :=
  mkGraphState (df_raw state) (df_validated state) (question state)
               (Some s) (result state) (status state).

Definition with_failed_sql (state : GraphState) : GraphState :=
  mkGraphState (df_raw state) (df_validated state) (question state)
               (Some "") (result state) (Some FAILED).

Definition with_result (t : Table) (st : Status) (state : GraphState) : GraphState :=
  mkGraphState (df_raw state) (df_validated state) (question state)
               (sql state) (Some t) (Some st).

(** ** Column names (lines 35-39 of [validate_data]) *)

(** [s.replace(' ', '_')]. *)
Fixpoint replace_spaces (s : string) : string :=
  match s with
  | EmptyString => EmptyString
  | String c rest =>
      String (if Ascii.eqb c " " then "_"%char else c) (replace_spaces rest)
  end.

(** Line 35: [c.strip().lower().replace(' ', '_')]. *)
Definition normalize_column (c : string) : string :=
  replace_spaces (lower (strip c)).

(** Line 36. *)
Definition expected_cols : list string :=
  ["customer_id"; "name"; "surname"; "gender"; "age"; "region";
   "job_classification"; "date_joined"; "balance"].

(** Lines 37-39 on the list of column names: [df[col] = pd.NA] appends the
    column [col] when the frame has none of that name. *)
Definition add_missing (columns : list string) : list string :=
  foldl (fun (cols : list string) (col : string) =>
           if decide (col ∈ cols) then cols else (cols ++ [col])%list)
        columns expected_cols.

(** Lines 35-39 on the list of column names. *)
Definition prepare_columns (columns : list string) : list string :=
  add_missing (map normalize_column columns).

(** ** Agent 2: saving the cleaned data ([store_to_sqlite]) *)

(** The store as the function uses it: opening the database file, and
    writing a frame to a table of it, which replaces the table when there is
    one.  Each call returns or raises; what a call leaves in the file is the
    affair of the library. *)
Record Store : Type := mkStore {
  open_database : outcome unit;                (* sqlite3.connect("bank_customer.db") *)
  to_sql : string -> DataFrame -> outcome unit
    (* df.to_sql(name, conn, if_exists="replace", index=False) *)
}.

(** The calls of [to_sql] made so far, oldest first: the name of the table
    and the frame handed over. *)
Abbreviation Writes := (list (string * DataFrame)).

(** Lines 114-119.  The function returns its outcome and the calls of
    [to_sql] made by then; a call that raises was made. *)
Definition store_to_sqlite (s : Store) (state : GraphState) (writes : Writes)
  : outcome GraphState * Writes :=
  match getitem (df_validated state) with
  | Ret df =>
      match open_database s with
      | Ret _ =>
          let writes' := (writes ++ [("customers", df)])%list in
          match to_sql s "customers" df with
          | Ret _ => (Ret state, writes')
          | Raise e => (Raise e, writes')
          | Diverge => (Diverge, writes')
          end
      | Raise e => (Raise e, writes)
      | Diverge => (Diverge, writes)
      end
  | Raise e => (Raise e, writes)
  | Diverge => (Diverge, writes)
  end.

(** ** The two graphs *)

(** A node of a [StateGraph] returns an update of the state: the keys it
    holds replace those of the state, the other keys stay. *)
Definition merge_key {A : Type} (update current : option A) : option A :=
  match update with
  | Some a => Some a
  | None => current
  end.

Definition merge_state (update state : GraphState) : GraphState :=
  mkGraphState (merge_key (df_raw update) (df_raw state))
               (merge_key (df_validated update) (df_validated state))
               (merge_key (question update) (question state))
               (merge_key (sql update) (sql state))
               (merge_key (result update) (result state))
               (merge_key (status update) (status state)).

(** [build_validation_graph().invoke(state)]: [validate], then [store]. *)
Definition validation_graph (str_of_num : float -> string)
           (to_datetime_ok : value -> bool) (s : Store)
           (state : GraphState) (writes : Writes)
  : outcome GraphState * Writes :=
  match validate_data str_of_num to_datetime_ok state with
  | Ret update =>
      let state1 := merge_state update state in
      match store_to_sqlite s state1 writes with
      | (Ret update2, writes') => (Ret (merge_state update2 state1), writes')
      | other => other
      end
  | Raise e => (Raise e, writes)
  | Diverge => (Diverge, writes)
  end.

(** [build_sql_qa_graph().invoke(state)]: [generate_sql], then [run_sql]. *)
Definition sql_qa_graph (w : World) (state : GraphState) : outcome GraphState :=
  update ← run_llm_sql w state;
  let state1 := merge_state update state in
  update2 ← execute_sql w state1;
  Ret (merge_state update2 state1).

(** ** The chat history of the application ([app02.py], lines 110-125) *)




(** ** Counting the issues of the summary *)

(** The issues that the summary loop counts in a cell: the pieces between
    semicolons, stripped, that are not empty (lines 55-59). *)
Definition issue_pieces (val : string) : list string :=
  match val with
  | EmptyString => []
  | String _ _ =>
      filter (fun issue => issue <> EmptyString) (map strip (split_semicolon val))
  end.

(** The sum of the counters of a bucket, and of all buckets. *)
Definition bucket_total (bucket : gmap string nat) : nat :=
  map_fold (fun _ n acc => n + acc) 0 bucket.

Definition tracker_total (issue_tracker : gmap string (gmap string nat)) : nat :=
  map_fold (fun _ bucket acc => bucket_total bucket + acc) 0 issue_tracker.

(** A note as [validate_data] writes them: no semicolon in it, no white
    space at its ends, not empty. *)
Definition plain_note (note : string) : Prop :=
  until_semicolon note = None /\ strip note = note /\ note <> EmptyString.

(** A text without semicolon and without white space. *)
Fixpoint tame (s : string) : bool :=
  match s with
  | EmptyString => true
  | String c rest => negb (Ascii.eqb c ";") && negb (is_space c) && tame rest
  end.

(** ** Reference instances of the parameters, and sample data

    The examples below run the validator with these two instances. *)

(** [str(x)] with one digit after the point, which is what Python prints for
    the whole numbers of the examples. *)
Definition sample_str_of_num (x : float) : string := format_1f x.

Definition month_abbreviations : list string :=
  ["jan"; "feb"; "mar"; "apr"; "may"; "jun"; "jul"; "aug"; "sep"; "oct"; "nov"; "dec"].

Definition is_digit (c : ascii) : bool :=
  (48 <=? nat_of_ascii c)%nat && (nat_of_ascii c <=? 57)%nat.

Definition digit_value (c : ascii) : nat := nat_of_ascii c - 48.

Definition days_in_month (month year : nat) : nat :=
  match month with
  | 1 => if (year mod 4 =? 0)%nat then 29 else 28
  | 3 | 5 | 8 | 10 => 30
  | _ => 31
  end.

(** The index of a month abbreviation, case ignored. *)
Fixpoint month_index (abbreviations : list string) (s : string) : option nat :=
  match abbreviations with
  | [] => None
  | m :: rest =>
      if String.eqb m (lower s) then Some 0
      else option_map S (month_index rest s)
  end.

(** A date of the form day.MonthAbbreviation.twoDigitYear, such as
    [05.Jan.23], whose day exists in that month. *)
Definition strptime_d_b_y (s : string) : bool :=
  match s with
  | String d1 (String d2 (String "." (String m1 (String m2 (String m3
      (String "." (String y1 (String y2 EmptyString)))))))) =>
      is_digit d1 && is_digit d2 && is_digit y1 && is_digit y2 &&
      match month_index month_abbreviations
                        (String m1 (String m2 (String m3 EmptyString))) with
      | Some month =>
          let day := 10 * digit_value d1 + digit_value d2 in
          let year := 10 * digit_value y1 + digit_value y2 in
          (1 <=? day)%nat && (day <=? days_in_month month year)%nat
      | None => false
      end
  | _ => false
  end.

(** [pd.to_datetime] returns [NaT] for an absent value and raises on a number
    or on a text that is not a date of the format. *)
Definition sample_to_datetime_ok (v : value) : bool :=
  match v with
  | NA => true
  | Num x => PrimFloat.is_nan x
  | Str s => strptime_d_b_y s
  end.

(** A row without defects. *)
Definition clean_row : Row :=
  mkRow (Str "C-1") (Str "Ann") (Str "Lee") (Str "Female") (Num 30%float)
        (Str "North") (Str "Clerk") (Str "05.Jan.23") (Num 10%float) NA NA.

(** Frames that differ from copies of [clean_row] in one column. *)
Definition frame_of_ages (d : dtype) (cells : list value) : DataFrame :=
  mkFrame d (map (fun v => set_age v clean_row) cells).

Definition frame_of_balances (d : dtype) (cells : list value) : DataFrame :=
  mkFrame d (map (fun v => set_balance v clean_row) cells).

Definition frame_of_ids (d : dtype) (cells : list value) : DataFrame :=
  mkFrame d (map (fun v => set_customer_id v clean_row) cells).

(** The validator run with the reference instances. *)
Definition sample_validate (raw : DataFrame) : outcome DataFrame :=
  validate_frame sample_str_of_num sample_to_datetime_ok raw.

(** The output of the validator on a frame on which it returns. *)
Definition output_of (raw : DataFrame) : DataFrame :=
  match sample_validate raw with
  | Ret out => out
  | _ => mkFrame object []
  end.

(** Seven rows, two of them without an age. *)
Definition ages_frame : DataFrame :=
  frame_of_ages float64
    [Num 9%float; Num 31%float; NA; Num 93%float; Num 69%float; NA; Num 99%float].

(** Eight rows, the last two of them without an age: from eight cells on
    the column is summed in eight running sums. *)
Definition eight_ages_frame : DataFrame :=
  frame_of_ages float64
    [Num 56%float; Num 37%float; Num 48%float; Num 59%float; Num 58%float;
     Num 76%float; NA; NA].

(** Two rows, none of them with an age. *)
Definition ageless_frame : DataFrame := frame_of_ages float64 [NA; NA].

(** A balance column read as text: its second cell is not a number. *)
Definition text_balance_frame : DataFrame :=
  frame_of_balances object [Num 10%float; Str "abc"].

(** A hundred balances of zero and one of 5000: the 99th percentile is 0. *)
Definition zero_threshold_frame : DataFrame :=
  frame_of_balances float64 (replicate 100 (Num 0%float) ++ [Num 5000%float]).

(** The balances of the outlier example of the specification. *)
Definition outlier_frame : DataFrame :=
  frame_of_balances float64
    [Num 10%float; Num 10%float; Num 10%float; Num 10%float; Num 1000%float].

(** Five rows, three without an id; two of the first candidates are taken. *)
Definition ids_frame : DataFrame :=
  frame_of_ids float64 [NA; Str "AUTO-100002"; NA; Str "AUTO-100001"; NA].

(** A clean row with balance 5 and a row without balance. *)
Definition revalidation_frame : DataFrame :=
  frame_of_balances float64 [Num 5%float; NA].

(** The state handed to the validation graph for a raw frame. *)
Definition state_of (raw : DataFrame) : GraphState :=
  mkGraphState (Some raw) None None None None None.

(** A store with one table of two columns that answers every non-empty
    query with that table and raises on the empty text, and a model that
    answers every prompt with [reply]. *)
Definition sample_table : Table :=
  mkTable ["customer_id"; "age"] [[Str "C-1"; Num 30%float]].

Definition sample_world (reply : outcome string) : World :=
  mkWorld (Ret tt)
          (fun sql_text => match sql_text with
                           | EmptyString => Raise TypeError
                           | String _ _ => Ret sample_table
                           end)
          (fun _ => reply).

(** A store that opens and on which every write returns. *)
Definition sample_store : Store := mkStore (Ret tt) (fun _ _ => Ret tt).

(** The state handed to the question-answering graph for a question. *)
Definition question_state (question_text : string) : GraphState :=
  mkGraphState None None (Some question_text) None None None.

Definition spec_reply : string :=
  "Sure! SELECT * FROM customers WHERE age < 30; Let me know if that helps.".

(** * Properties *)

Local Open Scope list_scope.

(** ** The monad of outcomes *)

Lemma bind_Ret_inv {A B : Type} (m : outcome A) (k : A -> outcome B) (b : B) :
  (m ≫= k) = Ret b -> exists a, m = Ret a /\ k a = Ret b.
Proof. destruct m as [a| |]; simpl; intros H; try discriminate. eauto. Qed.

Ltac inv_bind H :=
  let a := fresh "a" in
  let Ha := fresh "Ha" in
  apply bind_Ret_inv in H; destruct H as (a & Ha & H).

(** ** Writing a cell *)

Lemma at_set_id (i : nat) (l : list Row) : at_set i (fun r => r) l = l.
Proof. unfold at_set. by apply list_alter_id. Qed.

Lemma at_set_twice (i : nat) (f g : Row -> Row) (l : list Row) :
  at_set i f (at_set i g l) = at_set i (fun r => f (g r)) l.
Proof. unfold at_set. by rewrite list_alter_alter_eq. Qed.

Lemma at_set_ext (i : nat) (f g : Row -> Row) (l : list Row) :
  (forall r, f r = g r) -> at_set i f l = at_set i g l.
Proof. intros H. unfold at_set. apply list_alter_ext; auto. Qed.

Lemma map_at_set {A : Type} (proj : Row -> A) (i : nat) (f : Row -> Row) (l : list Row) :
  (forall r, proj (f r) = proj r) -> map proj (at_set i f l) = map proj l.
Proof.
  intros Hkeep. unfold at_set. revert i.
  induction l as [|r l IH]; intros [|i]; simpl; auto.
  - by rewrite Hkeep.
  - f_equal. apply IH.
Qed.

(** ** Generated ids *)

Lemma auto_id_inj (m n : N) : auto_id m = auto_id n -> m = n.
Proof.
  unfold auto_id. intros H. apply (inj (String.append "AUTO-")) in H.
  by apply (inj pretty) in H.
Qed.

Lemma next_free_spec fuel ids counter n :
  next_free fuel ids counter = Some n ->
  (counter <= n)%N /\ auto_id n ∉ ids
  /\ forall m, (counter <= m < n)%N -> auto_id m ∈ ids.
Proof.
  revert counter. induction fuel as [|fuel IH]; intros counter; simpl; [discriminate|].
  destruct (decide (auto_id counter ∈ ids)) as [Hin|Hout].
  - intros H. apply IH in H as (Hle & Hfree & Hbelow).
    split; [lia|]. split; [exact Hfree|].
    intros m Hm. destruct (decide (m = counter)) as [->|Hne]; [exact Hin|].
    apply Hbelow. lia.
  - intros [= <-]. split; [lia|]. split; [exact Hout|]. intros m Hm. lia.
Qed.

(** The candidates tested by a search that runs out of fuel are all in use,
    and they are as many as the fuel. *)
Lemma next_free_none fuel ids counter :
  next_free fuel ids counter = None ->
  exists taken : gset string, taken ⊆ ids /\ size taken = fuel
    /\ forall s, s ∈ taken -> exists m, (counter <= m)%N /\ s = auto_id m.
Proof.
  revert counter. induction fuel as [|fuel IH]; intros counter; simpl.
  - intros _. exists ∅. split; [set_solver|]. split; [apply size_empty|set_solver].
  - destruct (decide (auto_id counter ∈ ids)) as [Hin|Hout]; [|discriminate].
    intros H. apply IH in H as (taken & Hsub & Hsize & Hform).
    exists ({[ auto_id counter ]} ∪ taken). split; [set_solver|]. split.
    + rewrite size_union, size_singleton; [lia|].
      apply disjoint_singleton_l. intros Hmem.
      apply Hform in Hmem as (m & Hm & Heq). apply auto_id_inj in Heq. lia.
    + intros s [->%elem_of_singleton|Hs]%elem_of_union.
      * exists counter. split; [lia|done].
      * apply Hform in Hs as (m & Hm & ->). exists m. split; [lia|done].
Qed.

(** The [while] loop of lines 50-52 stops: among [size ids + 1] candidates one
    is free. *)
Lemma next_free_total ids counter :
  exists n, next_free (S (size ids)) ids counter = Some n.
Proof.
  destruct (next_free (S (size ids)) ids counter) as [n|] eqn:H; [eauto|].
  apply next_free_none in H as (taken & Hsub & Hsize & _).
  apply subseteq_size in Hsub. lia.
Qed.

(** ** The mean of a column *)

Lemma existsb_is_text cells :
  existsb is_text cells = false <-> Forall not_text cells.
Proof.
  induction cells as [|v cells IH]; simpl.
  - split; [constructor|done].
  - rewrite orb_false_iff, Forall_cons, IH. destruct v; simpl; intuition congruence.
Qed.

Lemma split_point_bounds n :
  PW_BLOCKSIZE < n -> 0 < n / 2 - (n / 2) mod 8 < n.
Proof.
  unfold PW_BLOCKSIZE. intros Hn.
  pose proof (Nat.div_mod_eq n 2) as Hdiv.
  pose proof (Nat.mod_upper_bound n 2 ltac:(lia)) as Hmod2.
  pose proof (Nat.mod_upper_bound (n / 2) 8 ltac:(lia)) as Hmod8.
  lia.
Qed.

(** The recursion of the pairwise sum ends within as many calls as the
    column has cells. *)
Lemma pairwise_sum_Ret fuel : forall a,
  length a <= fuel -> exists the_sum, pairwise_sum fuel a = Ret the_sum.
Proof.
  induction fuel as [|fuel IH]; intros a Hlen.
  - destruct a; [|simpl in Hlen; lia]. simpl. eauto.
  - cbn [pairwise_sum].
    destruct (Nat.ltb_spec (length a) 8) as [Hlt|Hge]; [eauto|].
    destruct (Nat.leb_spec (length a) PW_BLOCKSIZE) as [Hle|Hgt]; [eauto|].
    pose proof (split_point_bounds (length a) Hgt) as Hsplit.
    destruct (IH (take (length a / 2 - (length a / 2) mod 8) a)) as [sum1 ->].
    { rewrite length_take. lia. }
    destruct (IH (drop (length a / 2 - (length a / 2) mod 8) a)) as [sum2 ->].
    { rewrite length_drop. lia. }
    simpl. eauto.
Qed.

Lemma nansum_Ret cells :
  Forall not_text cells -> exists the_sum, nansum cells = Ret the_sum.
Proof.
  intros Hall. unfold nansum. apply existsb_is_text in Hall as ->.
  destruct (pairwise_sum_Ret (length cells) (map filled cells)) as [the_sum ->].
  { by rewrite length_map. }
  simpl. eauto.
Qed.

Lemma nansum_Ret_inv cells the_sum :
  nansum cells = Ret the_sum -> Forall not_text cells.
Proof.
  unfold nansum. destruct (existsb is_text cells) eqn:Htext; [done|].
  intros _. by apply existsb_is_text.
Qed.

Lemma mean_Ret cells : Forall not_text cells -> exists a, mean cells = Ret a.
Proof.
  intros Hall. unfold mean.
  destruct (nansum_Ret cells Hall) as [the_sum ->]. simpl. eauto.
Qed.

Lemma mean_Ret_inv cells a : mean cells = Ret a -> Forall not_text cells.
Proof.
  unfold mean. intros H. inv_bind H. by apply nansum_Ret_inv in Ha.
Qed.

(** ** Joined notes *)

Lemma join_cons_nonempty sep s l : s <> "" -> join sep (s :: l) <> "".
Proof. destruct s as [|c s]; [done|]. destruct l; simpl; done. Qed.

Lemma join_empty_inv sep l : Forall (fun s => s <> "") l -> join sep l = "" -> l = [].
Proof.
  destruct l as [|s l]; [done|]. intros [Hs _]%Forall_cons Hjoin.
  by apply (join_cons_nonempty sep s l) in Hs.
Qed.

Lemma when_nonempty b note : note <> "" -> Forall (fun s => s <> "") (when b note).
Proof. intros H. destruct b; simpl; auto. Qed.

Lemma when_nil_inv b note : when b note = [] -> b = false.
Proof. by destruct b. Qed.

(** ** The notes of a cell

    Notes joined with "; " are read back by splitting the cell at its
    semicolons and stripping the pieces, when the notes are plain. *)

Lemma rstrip_cons c s :
  rstrip (String c s)
  = match rstrip s with
    | EmptyString => if is_space c then EmptyString else String c EmptyString
    | kept => String c kept
    end.
Proof. reflexivity. Qed.

Lemma split_semicolon_plain a : until_semicolon a = None -> split_semicolon a = [a].
Proof.
  induction a as [|c a IH]; [reflexivity|]. cbn [until_semicolon split_semicolon].
  destruct (Ascii.eqb c ";"); [discriminate|].
  destruct (until_semicolon a); [discriminate|]. intros _. by rewrite IH.
Qed.

Lemma split_semicolon_app a b :
  until_semicolon a = None ->
  split_semicolon (a +:+ String ";" b) = a :: split_semicolon b.
Proof.
  induction a as [|c a IH]; [reflexivity|]. cbn [until_semicolon].
  change (String c a +:+ String ";" b) with (String c (a +:+ String ";" b)).
  cbn [split_semicolon].
  destruct (Ascii.eqb c ";"); [discriminate|].
  destruct (until_semicolon a); [discriminate|]. intros _. by rewrite IH.
Qed.

Lemma strip_space_cons s : strip (String " " s) = strip s.
Proof. reflexivity. Qed.

Lemma pieces_of_joined sep_space notes :
  Forall plain_note notes -> notes <> [] ->
  map strip (split_semicolon
               ((if sep_space : bool then " " else "") +:+ join "; " notes))
  = notes.
Proof.
  intros Hall. revert sep_space.
  induction Hall as [|note notes (Hsemi & Hstrip & Hne) Hall IH];
    intros sep_space Hnil; [done|clear Hnil].
  destruct notes as [|note2 notes].
  - cbn [join]. destruct sep_space.
    + change (" " +:+ note) with (String " " note).
      rewrite split_semicolon_plain; [|cbn [until_semicolon]; by rewrite Hsemi].
      cbn [map]. by rewrite strip_space_cons, Hstrip.
    + change ("" +:+ note) with note. rewrite split_semicolon_plain by done.
      cbn [map]. by rewrite Hstrip.
  - change (join "; " (note :: note2 :: notes))
      with (note +:+ String ";" (" " +:+ join "; " (note2 :: notes))).
    specialize (IH true ltac:(done)). cbn [map] in *.
    destruct sep_space.
    + change (" " +:+ note +:+ String ";" (" " +:+ join "; " (note2 :: notes)))
        with (String " " note +:+ String ";" (" " +:+ join "; " (note2 :: notes))).
      rewrite split_semicolon_app; [|cbn [until_semicolon]; by rewrite Hsemi].
      cbn [map]. rewrite IH. by rewrite strip_space_cons, Hstrip.
    + change ("" +:+ note +:+ String ";" (" " +:+ join "; " (note2 :: notes)))
        with (note +:+ String ";" (" " +:+ join "; " (note2 :: notes))).
      rewrite split_semicolon_app by done.
      cbn [map]. rewrite IH. by rewrite Hstrip.
Qed.

Lemma filter_nonempty_plain notes :
  Forall plain_note notes ->
  filter (fun issue : string => issue <> "") notes = notes.
Proof.
  induction 1 as [|note notes (_ & _ & Hne) Hall IH]; [reflexivity|].
  rewrite filter_cons_True by done. by rewrite IH.
Qed.

Lemma issue_pieces_join notes :
  Forall plain_note notes -> issue_pieces (join "; " notes) = notes.
Proof.
  intros Hall. destruct notes as [|note notes]; [reflexivity|].
  unfold issue_pieces.
  destruct (join "; " (note :: notes)) as [|c s] eqn:Hjoin.
  - apply Forall_cons in Hall as [(_ & _ & Hne) _].
    by apply (join_cons_nonempty "; " note notes) in Hne.
  - rewrite <- Hjoin.
    pose proof (pieces_of_joined false (note :: notes) Hall ltac:(done)) as Hpieces.
    change ((if false then " " else "") +:+ join "; " (note :: notes))
      with (join "; " (note :: notes)) in Hpieces.
    rewrite Hpieces. by apply filter_nonempty_plain.
Qed.

Lemma when_plain b note : plain_note note -> Forall plain_note (when b note).
Proof. intros H. destruct b; simpl; auto. Qed.

Lemma issues_of_plain to_datetime_ok row bad above :
  Forall plain_note (issues_of to_datetime_ok row bad above).
Proof.
  unfold issues_of.
  repeat apply Forall_app_2; apply when_plain; (split; [|split]); vm_compute; congruence.
Qed.

(** The notes with a generated id or a formatted mean in them are plain:
    the digits of a number hold no semicolon and no white space. *)

Lemma tame_app a b : tame (a +:+ b) = tame a && tame b.
Proof.
  induction a as [|c a IH]; [reflexivity|].
  change (String c a +:+ b) with (String c (a +:+ b)). cbn [tame].
  rewrite IH. by rewrite andb_assoc.
Qed.

Lemma tame_no_semicolon t : tame t = true -> until_semicolon t = None.
Proof.
  induction t as [|c t IH]; [reflexivity|]. cbn [tame until_semicolon].
  intros [[Hsemi _]%andb_true_iff Ht]%andb_true_iff.
  apply negb_true_iff in Hsemi. rewrite Hsemi. by rewrite IH.
Qed.

Lemma until_semicolon_none_app a b :
  until_semicolon a = None -> until_semicolon b = None ->
  until_semicolon (a +:+ b) = None.
Proof.
  intros Ha Hb. induction a as [|c a IH]; [exact Hb|].
  change (String c a +:+ b) with (String c (a +:+ b)).
  cbn [until_semicolon] in *.
  destruct (Ascii.eqb c ";"); [discriminate|].
  destruct (until_semicolon a); [discriminate|]. by rewrite IH.
Qed.

Lemma rstrip_tame t : tame t = true -> rstrip t = t.
Proof.
  induction t as [|c t IH]; [reflexivity|]. cbn [tame].
  intros [[_ Hspace]%andb_true_iff Ht]%andb_true_iff.
  apply negb_true_iff in Hspace. rewrite rstrip_cons, IH by done.
  destruct t; [by rewrite Hspace|reflexivity].
Qed.

Lemma rstrip_app_fixed p t :
  rstrip t = t -> t <> "" -> rstrip (p +:+ t) = p +:+ t.
Proof.
  intros Ht Hne. induction p as [|c p IH]; [exact Ht|].
  change (String c p +:+ t) with (String c (p +:+ t)).
  rewrite rstrip_cons, IH.
  destruct (p +:+ t) eqn:Happ; [|reflexivity].
  destruct p; [by cbn in Happ|discriminate Happ].
Qed.

(** A literal that starts a note, followed by a text without semicolon
    and white space, is a plain note. *)
Lemma plain_note_app c p t :
  is_space c = false -> until_semicolon (String c p) = None ->
  tame t = true -> t <> "" ->
  plain_note (String c p +:+ t).
Proof.
  intros Hc Hp Ht Hne. split; [|split].
  - apply until_semicolon_none_app; [exact Hp|by apply tame_no_semicolon].
  - unfold strip. change (String c p +:+ t) with (String c (p +:+ t)).
    cbn [lstrip]. rewrite Hc.
    change (String c (p +:+ t)) with (String c p +:+ t).
    apply rstrip_app_fixed; [by apply rstrip_tame|exact Hne].
  - discriminate.
Qed.

Lemma pretty_N_char_tame x : tame (String (pretty_N_char x) "") = true.
Proof. unfold pretty_N_char. by repeat case_match. Qed.

Lemma pretty_N_go_tame x : forall s,
  tame s = true -> tame (pretty_N_go x s) = true.
Proof.
  induction (N.lt_wf_0 x) as [x _ IH]. intros s Hs.
  assert (x = 0 \/ 0 < x)%N as [->|Hpos] by lia.
  - by rewrite pretty_N_go_0.
  - rewrite pretty_N_go_step by done. apply IH; [by apply N.div_lt|].
    pose proof (pretty_N_char_tame (x `mod` 10)) as Hc. cbn [tame] in *.
    rewrite andb_true_r in Hc. by rewrite Hc, Hs.
Qed.

Lemma pretty_N_go_nonempty x : forall s, s <> "" -> pretty_N_go x s <> "".
Proof.
  induction (N.lt_wf_0 x) as [x _ IH]. intros s Hs.
  assert (x = 0 \/ 0 < x)%N as [->|Hpos] by lia.
  - by rewrite pretty_N_go_0.
  - rewrite pretty_N_go_step by done. apply IH; [by apply N.div_lt|discriminate].
Qed.

Lemma pretty_N_tame (x : N) : tame (pretty x) = true /\ pretty x <> "".
Proof.
  unfold pretty, pretty_N. destruct (decide (x = 0)%N) as [->|Hne].
  - split; [reflexivity|discriminate].
  - split; [by apply pretty_N_go_tame|].
    rewrite pretty_N_go_step by lia. apply pretty_N_go_nonempty. discriminate.
Qed.

Lemma pretty_Z_tame (x : Z) : tame (pretty x) = true /\ pretty x <> "".
Proof.
  destruct x as [|p|p].
  - split; [reflexivity|discriminate].
  - apply (pretty_N_tame (N.pos p)).
  - destruct (pretty_N_tame (N.pos p)) as [Ht _].
    change (pretty (Z.neg p)) with ("-" +:+ pretty (N.pos p)).
    split; [|discriminate]. rewrite tame_app. by rewrite Ht.
Qed.

Lemma format_1f_tame x : tame (format_1f x) = true /\ format_1f x <> "".
Proof.
  unfold format_1f. destruct (FloatOps.Prim2SF x) as [s|s| |s m e].
  - by destruct s.
  - by destruct s.
  - done.
  - destruct (pretty_Z_tame (tenths m e / 10)) as [Hq Hqne].
    destruct (pretty_Z_tame (tenths m e `mod` 10)) as [Hr _].
    split.
    + rewrite !tame_app, Hq, Hr. by destruct s.
    + destruct s; [discriminate|]. cbn [String.append].
      destruct (pretty (tenths m e / 10)%Z); [done|discriminate].
Qed.

Lemma fixes_of_plain to_datetime_ok row new_id avg_age bad :
  (isna (customer_id row) = true -> exists n, new_id = auto_id n) ->
  Forall plain_note (fixes_of to_datetime_ok row new_id avg_age bad).
Proof.
  intros Hid. unfold fixes_of.
  repeat apply Forall_app_2;
    try (apply when_plain; (split; [|split]); vm_compute; congruence).
  - destruct (isna (customer_id row)); [|constructor].
    destruct (Hid eq_refl) as [n ->]. apply Forall_singleton.
    destruct (pretty_N_tame n) as [Ht Hne].
    change ("Auto-generated ID: " +:+ auto_id n)
      with ("Auto-generated ID: AUTO-" +:+ pretty n).
    apply plain_note_app; [reflexivity|reflexivity|exact Ht|exact Hne].
  - destruct (isna (age row)); [|constructor]. apply Forall_singleton.
    destruct (format_1f_tame avg_age) as [Ht Hne].
    apply plain_note_app; [reflexivity|reflexivity|exact Ht|exact Hne].
Qed.

Section ValidatorFacts.

Variable str_of_num : float -> string.
Variable to_datetime_ok : value -> bool.

Abbreviation body := (row_body to_datetime_ok).
Abbreviation loop := (iterrows to_datetime_ok).
Abbreviation effect := (row_effect to_datetime_ok).
Abbreviation issues_for := (issues_of to_datetime_ok).
Abbreviation fixes_for := (fixes_of to_datetime_ok).

(** *** One check at a time *)

Lemma check_customer_id_inv i row e e1 :
  check_customer_id i row e = Ret e1 ->
  exists new_id,
    df e1 = at_set i (fun r => if isna (customer_id row)
                               then set_customer_id (Str new_id) r else r) (df e)
    /\ row_issues e1 = row_issues e ++ when (isna (customer_id row)) "Missing customer_id"
    /\ row_fixes e1 = row_fixes e
                      ++ when (isna (customer_id row)) ("Auto-generated ID: " +:+ new_id)
    /\ if isna (customer_id row)
       then exists n,
           next_free (S (size (existing_ids e))) (existing_ids e) (auto_id_counter e)
           = Some n
           /\ new_id = auto_id n
           /\ existing_ids e1 = {[ new_id ]} ∪ existing_ids e
           /\ auto_id_counter e1 = (n + 1)%N
       else existing_ids e1 = existing_ids e
            /\ auto_id_counter e1 = auto_id_counter e.
Proof.
  unfold check_customer_id. destruct (isna (customer_id row)).
  - destruct (next_free _ _ _) as [n|] eqn:Hn; [|discriminate].
    intros [= <-]. exists (auto_id n). simpl. eauto 10.
  - intros [= <-]. exists "". simpl.
    rewrite at_set_id, !app_nil_r. auto.
Qed.

Lemma repair_when (b : bool) i put issue_text fix_text e :
  let e1 := if b then repair i put issue_text fix_text e else e in
  df e1 = at_set i (fun r => if b then put r else r) (df e)
  /\ row_issues e1 = row_issues e ++ when b issue_text
  /\ row_fixes e1 = row_fixes e ++ when b fix_text
  /\ existing_ids e1 = existing_ids e
  /\ auto_id_counter e1 = auto_id_counter e.
Proof.
  destruct b; simpl; [auto|]. rewrite at_set_id, !app_nil_r. auto.
Qed.

Lemma check_age_inv i row e e1 :
  check_age i row e = Ret e1 ->
  exists avg_age,
    df e1 = at_set i (fun r => if isna (age row) then set_age (Num avg_age) r else r) (df e)
    /\ row_issues e1 = row_issues e ++ when (isna (age row)) "Missing age"
    /\ row_fixes e1 = row_fixes e
         ++ when (isna (age row)) ("Filled age with average age " +:+ format_1f avg_age)
    /\ existing_ids e1 = existing_ids e
    /\ auto_id_counter e1 = auto_id_counter e
    /\ (isna (age row) = true -> mean (map age (df e)) = Ret avg_age).
Proof.
  unfold check_age. destruct (isna (age row)).
  - intros H. inv_bind H. injection H as <-. exists a. simpl. auto 10.
  - intros [= <-]. exists 0%float. simpl. rewrite at_set_id, !app_nil_r.
    repeat split; auto. discriminate.
Qed.

Lemma check_balance_inv i row e e1 :
  check_balance i row e = Ret e1 ->
  exists bad,
    balance_is_bad (balance row) = Ret bad
    /\ df e1 = at_set i (fun r => if bad then set_balance (Num 0%float) r else r) (df e)
    /\ row_issues e1 = row_issues e ++ when bad "Missing or negative balance"
    /\ row_fixes e1 = row_fixes e ++ when bad "Filled balance with 0"
    /\ existing_ids e1 = existing_ids e
    /\ auto_id_counter e1 = auto_id_counter e.
Proof.
  unfold check_balance. intros H. inv_bind H. injection H as <-.
  exists a. split; [exact Ha|]. apply (repair_when a).
Qed.

Lemma check_outlier_inv balance_thresh row e e1 :
  check_outlier balance_thresh row e = Ret e1 ->
  exists above,
    balance_is_outlier balance_thresh (balance row) = Ret above
    /\ df e1 = df e
    /\ row_issues e1 = row_issues e ++ when above "Outlier in balance"
    /\ row_fixes e1 = row_fixes e
    /\ existing_ids e1 = existing_ids e
    /\ auto_id_counter e1 = auto_id_counter e.
Proof.
  unfold check_outlier, balance_is_outlier.
  destruct balance_thresh as [t|]; [destruct (truthy (Some t))|].
  - intros H. inv_bind H. injection H as <-. exists a.
    split; [exact Ha|]. destruct a; simpl; rewrite ?app_nil_r; repeat split; auto.
  - intros [= <-]. exists false. simpl. rewrite app_nil_r. repeat split; auto.
  - intros [= <-]. exists false. simpl. rewrite app_nil_r. repeat split; auto.
Qed.

(** *** The body of the loop *)

Lemma row_body_inv balance_thresh i row e e' :
  body balance_thresh i row e = Ret e' ->
  exists new_id avg_age bad above,
    df e' = at_set i (effect row new_id avg_age bad) (df e)
    /\ row_issues e' = issues_for row bad above
    /\ row_fixes e' = fixes_for row new_id avg_age bad
    /\ balance_is_bad (balance row) = Ret bad
    /\ balance_is_outlier balance_thresh (balance row) = Ret above
    /\ (isna (age row) = true -> mean (map age (df e)) = Ret avg_age)
    /\ if isna (customer_id row)
       then exists n,
           next_free (S (size (existing_ids e))) (existing_ids e) (auto_id_counter e)
           = Some n
           /\ new_id = auto_id n
           /\ existing_ids e' = {[ new_id ]} ∪ existing_ids e
           /\ auto_id_counter e' = (n + 1)%N
       else existing_ids e' = existing_ids e
            /\ auto_id_counter e' = auto_id_counter e.
Proof.
  unfold row_body. intros H.
  inv_bind H. rename a into e1.
  apply check_customer_id_inv in Ha as (new_id & D1 & I1 & F1 & Hid). simpl in *.
  inv_bind H. rename a into e7.
  apply check_age_inv in Ha as (avg_age & D7 & I7 & F7 & S7 & C7 & Havg).
  inv_bind H. rename a into e8.
  apply check_balance_inv in Ha as (bad & Hbad & D8 & I8 & F8 & S8 & C8).
  apply check_outlier_inv in H as (above & Habove & D10 & I10 & F10 & S10 & C10).
  unfold check_date_joined, check_job_classification, check_region, check_gender,
    check_surname, check_name in *.
  repeat match goal with
         | H : context [if ?b then repair ?i ?put ?it ?ft ?e0 else ?e0] |- _ =>
             let X := fresh "X" in
             destruct (repair_when b i put it ft e0) as (?D & ?I & ?F & ?S & ?C);
             set (X := if b then repair i put it ft e0 else e0) in *;
             clearbody X
         end.
  lazymatch goal with
  | H : context [if to_datetime_ok ?v then ?e0 else repair ?i ?put ?it ?ft ?e0] |- _ =>
      let X := fresh "X" in
      destruct (repair_when (negb (to_datetime_ok v)) i put it ft e0)
        as (?D & ?I & ?F & ?S & ?C);
      replace (if negb (to_datetime_ok v) then repair i put it ft e0 else e0)
        with (if to_datetime_ok v then e0 else repair i put it ft e0) in *
        by (destruct (to_datetime_ok v); reflexivity);
      set (X := if to_datetime_ok v then e0 else repair i put it ft e0) in *;
      clearbody X
  end.
  exists new_id, avg_age, bad, above.
  repeat match goal with H : df _ = _ |- _ => try rewrite H in *; clear H end.
  repeat match goal with H : row_issues _ = _ |- _ => rewrite H; clear H end.
  repeat match goal with H : row_fixes _ = _ |- _ => rewrite H; clear H end.
  repeat match goal with H : existing_ids _ = _ |- _ => rewrite H in *; clear H end.
  repeat match goal with H : auto_id_counter _ = _ |- _ => rewrite H in *; clear H end.
  split; [|split; [|split; [|split; [|split; [|split]]]]]; auto.
  - rewrite !at_set_twice. apply at_set_ext. intros r.
    unfold row_effect. destruct r.
    destruct (isna (customer_id row)), (isna (name row)), (isna (surname row)),
      (isna (gender row)), (isna (region row)), (isna (job_classification row)),
      (isna (age row)), bad, (to_datetime_ok (date_joined row));
      reflexivity.
  - unfold issues_of. simpl. by rewrite <- !app_assoc.
  - unfold fixes_of. simpl. by rewrite <- !app_assoc, ?app_nil_r.
  - intros Hage. specialize (Havg Hage). rewrite <- Havg. f_equal.
    symmetry. rewrite !at_set_twice. apply map_at_set. intros r.
    destruct (isna (customer_id row)), (isna (name row)), (isna (surname row)),
      (isna (gender row)), (isna (region row)), (isna (job_classification row));
      reflexivity.
Qed.

(** *** The loop *)

Section Loop.

Variable balance_thresh : option float.
Variable raw : list Row.
Variable e0 : Env.
Hypothesis df_e0 : df e0 = raw.

Abbreviation reached := (reaches to_datetime_ok balance_thresh raw e0).

Lemma reaches_fun i e e' : reached i e -> reached i e' -> e = e'.
Proof.
  intros H. revert e'. induction H as [|i row e e1 H IH Hrow Hbody]; intros e' H'.
  - by inversion H'.
  - inversion H' as [|i' row' e2 e3 H2 Hrow' Hbody']; subst.
    apply IH in H2 as <-. congruence.
Qed.

Lemma reaches_length i e : reached i e -> length (df e) = length raw.
Proof.
  induction 1 as [|i row e e1 H IH Hrow Hbody]; [by rewrite df_e0|].
  apply row_body_inv in Hbody as (? & ? & ? & ? & -> & _).
  unfold at_set. by rewrite length_alter.
Qed.

Lemma reaches_le i e : reached i e -> i <= length raw.
Proof.
  induction 1 as [|i row e e1 H IH Hrow Hbody]; [lia|].
  apply lookup_lt_Some in Hrow. lia.
Qed.

(** Rows that the loop has not reached yet are as in the raw frame. *)
Lemma reaches_ahead i e j : reached i e -> i <= j -> df e !! j = raw !! j.
Proof.
  induction 1 as [|i row e e1 H IH Hrow Hbody]; intros Hj; [by rewrite df_e0|].
  apply row_body_inv in Hbody as (? & ? & ? & ? & -> & _).
  unfold at_set. rewrite list_lookup_alter_ne by lia. apply IH. lia.
Qed.

(** Rows that the loop has left are not written again. *)
Lemma reaches_behind j ej :
  reached j ej -> forall k ek, k < j -> reached (S k) ek -> df ej !! k = df ek !! k.
Proof.
  induction 1 as [|j row e e1 H IH Hrow Hbody]; intros k ek Hk Hreach; [lia|].
  destruct (decide (k = j)) as [->|Hne].
  - assert (e1 = ek) as ->; [|done].
    eapply reaches_fun; [|exact Hreach]. econstructor; eauto.
  - rewrite <- (IH k ek) by (auto; lia).
    apply row_body_inv in Hbody as (? & ? & ? & ? & -> & _).
    unfold at_set. by rewrite list_lookup_alter_ne.
Qed.

Lemma iterrows_inv n : forall i e issues fixes ef issues' fixes',
  length (drop i raw) = n ->
  reached i e -> length issues = i -> length fixes = i ->
  loop balance_thresh (drop i raw) i e issues fixes = Ret (ef, issues', fixes') ->
  reached (length raw) ef
  /\ length issues' = length raw /\ length fixes' = length raw
  /\ (forall k x, issues !! k = Some x -> issues' !! k = Some x)
  /\ (forall k x, fixes !! k = Some x -> fixes' !! k = Some x)
  /\ forall k row, i <= k -> raw !! k = Some row ->
       exists ek ek', reached k ek
         /\ body balance_thresh k row ek = Ret ek'
         /\ issues' !! k = Some (join "; " (row_issues ek'))
         /\ fixes' !! k = Some (join "; " (row_fixes ek')).
Proof.
  induction n as [|n IH]; intros i e issues fixes ef issues' fixes' Hn Hreach Hi Hf Hrun.
  - rewrite length_drop in Hn. pose proof (reaches_le _ _ Hreach) as Hle.
    assert (i = length raw) as -> by lia.
    rewrite drop_all in Hrun. simpl in Hrun. injection Hrun as <- <- <-.
    repeat split; auto.
    intros k row Hk Hrow. apply lookup_lt_Some in Hrow. lia.
  - destruct (raw !! i) as [row|] eqn:Hrow.
    2:{ apply lookup_ge_None in Hrow. rewrite length_drop in Hn. lia. }
    rewrite (drop_S _ _ _ Hrow) in Hrun, Hn. simpl in Hrun, Hn.
    inv_bind Hrun. rename a into e1.
    assert (reached (S i) e1) as Hreach1 by (econstructor; eauto).
    apply IH in Hrun as (Hfinal & Hli & Hlf & Hiss & Hfix & Hrows);
      [|lia|exact Hreach1|rewrite length_app; simpl; lia..].
    split; [exact Hfinal|]. split; [exact Hli|]. split; [exact Hlf|].
    split; [|split].
    + intros k x Hx. apply Hiss. by apply lookup_app_l_Some.
    + intros k x Hx. apply Hfix. by apply lookup_app_l_Some.
    + intros k row' Hk Hrow'.
      destruct (decide (k = i)) as [->|Hne]; [|apply Hrows; [lia|exact Hrow']].
      assert (row' = row) as -> by congruence.
      exists e, e1. split; [exact Hreach|]. split; [exact Ha|]. split.
      * apply Hiss. rewrite lookup_app_r by lia.
        by replace (i - length issues) with 0 by lia.
      * apply Hfix. rewrite lookup_app_r by lia.
        by replace (i - length fixes) with 0 by lia.
Qed.

End Loop.

(** *** The validator *)

Abbreviation validate := (validate_frame str_of_num to_datetime_ok).
Abbreviation run_of raw :=
  (reaches to_datetime_ok (threshold_of raw) (rows raw)
                     (initial_env str_of_num raw)).

(** Every row of the output is the raw row repaired by one iteration of the
    loop, run in the state the loop had reached. *)
Lemma validate_frame_inv raw out :
  validate raw = Ret out ->
  balance_dtype out = balance_dtype raw
  /\ length (rows out) = length (rows raw)
  /\ exists ef, run_of raw (length (rows raw)) ef
     /\ forall i row, rows raw !! i = Some row ->
        exists e e' r',
          run_of raw i e
          /\ body (threshold_of raw) i row e = Ret e'
          /\ df ef !! i = df e' !! i
          /\ df e' !! i = Some r'
          /\ rows out !! i
             = Some (set_derived (Str (join "; " (row_issues e')))
                                 (Str (join "; " (row_fixes e'))) r').
Proof.
  unfold validate_frame. intros H. inv_bind H. destruct a as [[ef issues] fixes].
  injection H as <-. simpl.
  pose proof (iterrows_inv (threshold_of raw) (rows raw) (initial_env str_of_num raw)
                (length (rows raw)) 0 (initial_env str_of_num raw)
                [] [] ef issues fixes) as Hinv.
  rewrite drop_0 in Hinv.
  destruct Hinv as (Hfinal & Hli & Hlf & _ & _ & Hrows);
    [done|constructor|done|done|exact Ha|].
  pose proof (reaches_length (threshold_of raw) (rows raw) (initial_env str_of_num raw)
                eq_refl _ _ Hfinal) as Hlen.
  split; [done|]. split.
  - unfold assign_derived. rewrite length_zip_with, length_zip. lia.
  - exists ef. split; [exact Hfinal|]. intros i row Hrow.
    destruct (Hrows i row) as (e & e' & Hreach & Hbody & Hiss & Hfix); [lia|exact Hrow|].
    assert (run_of raw (S i) e') as Hreach' by (econstructor; eauto).
    pose proof (reaches_length (threshold_of raw) (rows raw) (initial_env str_of_num raw)
                  eq_refl _ _ Hreach') as Hlen'.
    destruct (df e' !! i) as [r'|] eqn:Hr'.
    2:{ apply lookup_ge_None in Hr'. apply lookup_lt_Some in Hrow. lia. }
    assert (df ef !! i = Some r') as Hef.
    { rewrite <- Hr'. eapply (reaches_behind (threshold_of raw) (rows raw) (initial_env str_of_num raw)
                                     eq_refl); [exact Hfinal| |exact Hreach'].
      by apply lookup_lt_Some in Hrow. }
    exists e, e', r'. split; [exact Hreach|]. split; [exact Hbody|].
    split; [congruence|]. split; [done|].
    unfold assign_derived. rewrite lookup_zip_with, Hef. simpl.
    rewrite lookup_zip_with, Hiss. simpl. by rewrite Hfix.
Qed.

(** *** Generated ids along the loop *)

Abbreviation ids0 raw := (ids_of str_of_num (map customer_id (rows raw))).

Lemma run_ids raw i e :
  run_of raw i e ->
  (100001 <= auto_id_counter e)%N
  /\ ids0 raw ⊆ existing_ids e
  /\ (forall s, s ∈ existing_ids e ->
        s ∈ ids0 raw \/ exists j, j < i /\ generated_at raw (df e) j (Str s))
  /\ (forall m, (100001 <= m < auto_id_counter e)%N -> auto_id m ∈ existing_ids e)
  /\ (forall j v, j < i -> generated_at raw (df e) j v ->
        exists m, v = Str (auto_id m) /\ (100001 <= m < auto_id_counter e)%N
                  /\ auto_id m ∉ ids0 raw)
  /\ (forall j1 j2 v1 v2, j1 < j2 < i ->
        generated_at raw (df e) j1 v1 -> generated_at raw (df e) j2 v2 -> v1 <> v2).
Proof.
  induction 1 as [|i row e e1 H IH Hrow Hbody].
  - simpl. split; [lia|]. split; [done|]. split; [auto|]. repeat split; intros; lia.
  - destruct IH as (HA & HB & HC & HD & HE & HF).
    pose proof (reaches_ahead (threshold_of raw) (rows raw) (initial_env str_of_num raw)
                  eq_refl i e i H (le_n i)) as Hi. simpl in Hi.
    rewrite Hrow in Hi.
    apply row_body_inv in Hbody
      as (new_id & avg_age & bad & above & Hdf & _ & _ & _ & _ & _ & Hid).
    assert (forall j, j < i -> df e1 !! j = df e !! j) as Hold.
    { intros j Hj. rewrite Hdf. unfold at_set. apply list_lookup_alter_ne. lia. }
    assert (df e1 !! i = Some (effect row new_id avg_age bad row)) as Hnew.
    { rewrite Hdf. unfold at_set. by rewrite list_lookup_alter_eq, Hi. }
    assert (forall j v, j < i -> generated_at raw (df e) j v
                        -> generated_at raw (df e1) j v) as Hkeep.
    { intros j v Hj (rj & r & ? & ? & ? & ?). exists rj, r.
      rewrite Hold by done. auto. }
    assert (forall j v, j < i -> generated_at raw (df e1) j v
                        -> generated_at raw (df e) j v) as Hback.
    { intros j v Hj (rj & r & ? & ? & Hr & ?). exists rj, r.
      rewrite Hold in Hr by done. auto. }
    destruct (isna (customer_id row)) eqn:Hna.
    + destruct Hid as (n & Hn & -> & Hids & Hcnt).
      apply next_free_spec in Hn as (Hle & Hfree & Hbelow).
      rewrite Hids, Hcnt.
      split; [lia|]. split; [set_solver|]. split; [|split; [|split]].
      * intros s [->%elem_of_singleton|Hs]%elem_of_union.
        -- right. exists i. split; [lia|]. exists row, (effect row (auto_id n) avg_age bad row).
           repeat split; auto. simpl. by rewrite Hna.
        -- destruct (HC s Hs) as [?|(j & Hj & Hgen)]; [by left|].
           right. exists j. split; [lia|]. by apply Hkeep.
      * intros m Hm. destruct (decide (m = n)) as [->|Hne]; [set_solver|].
        apply elem_of_union_r.
        destruct (decide (m < auto_id_counter e)%N); [apply HD; lia|apply Hbelow; lia].
      * intros j v Hj Hgen. destruct (decide (j = i)) as [->|Hne].
        -- destruct Hgen as (rj & r & Hrj & _ & Hr & <-).
           rewrite Hnew in Hr. injection Hr as <-. simpl. rewrite Hna.
           exists n. split; [done|]. split; [lia|]. set_solver.
        -- apply Hback in Hgen; [|lia].
           destruct (HE j v) as (m & -> & Hm & Hm0); [lia|done|].
           exists m. split; [done|]. split; [lia|done].
      * intros j1 j2 v1 v2 Hj Hg1 Hg2. destruct (decide (j2 = i)) as [->|Hne].
        -- apply Hback in Hg1; [|lia].
           destruct (HE j1 v1) as (m & -> & Hm & _); [lia|done|].
           destruct Hg2 as (rj & r & _ & _ & Hr & <-).
           rewrite Hnew in Hr. injection Hr as <-. simpl. rewrite Hna.
           intros Heq. assert (auto_id m = auto_id n) as Heq'%auto_id_inj by congruence.
           lia.
        -- apply Hback in Hg1; [|lia]. apply Hback in Hg2; [|lia].
           apply (HF j1 j2); [lia|done..].
    + destruct Hid as (Hids & Hcnt). rewrite Hids, Hcnt.
      split; [done|]. split; [done|]. split; [|split; [done|split]].
      * intros s Hs. destruct (HC s Hs) as [?|(j & Hj & Hgen)]; [by left|].
        right. exists j. split; [lia|]. by apply Hkeep.
      * intros j v Hj Hgen. destruct (decide (j = i)) as [->|Hne].
        -- destruct Hgen as (rj & r & Hrj & Hnaj & _). congruence.
        -- apply Hback in Hgen; [|lia]. apply HE with j; [lia|done].
      * intros j1 j2 v1 v2 Hj Hg1 Hg2. destruct (decide (j2 = i)) as [->|Hne].
        -- destruct Hg2 as (rj & r & Hrj & Hnaj & _). congruence.
        -- apply Hback in Hg1; [|lia]. apply Hback in Hg2; [|lia].
           apply (HF j1 j2); [lia|done..].
Qed.

(** *** The validator returns or raises *)

Lemma nansum_no_diverge cells : nansum cells <> Diverge.
Proof.
  unfold nansum. destruct (existsb is_text cells); [done|].
  destruct (pairwise_sum_Ret (length cells) (map filled cells)) as [the_sum ->].
  { by rewrite length_map. }
  done.
Qed.

Lemma mean_no_diverge cells : mean cells <> Diverge.
Proof.
  unfold mean. pose proof (nansum_no_diverge cells) as H.
  destruct (nansum cells) as [the_sum| |]; simpl; congruence.
Qed.

Lemma row_body_no_diverge balance_thresh i row e :
  body balance_thresh i row e <> Diverge.
Proof.
  unfold row_body, check_customer_id.
  set (e0 := mkEnv _ _ _ _ _).
  assert (exists e1, (if isna (customer_id row)
                      then match next_free (S (size (existing_ids e0))) (existing_ids e0)
                                           (auto_id_counter e0) with
                           | Some n =>
                               Ret (mkEnv (at_set i (set_customer_id (Str (auto_id n))) (df e0))
                                          ({[ auto_id n ]} ∪ existing_ids e0) (n + 1)%N
                                          (row_issues e0 ++ ["Missing customer_id"])
                                          (row_fixes e0 ++ ["Auto-generated ID: " +:+ auto_id n]))
                           | None => Diverge
                           end
                      else Ret e0) = Ret e1) as [e1 ->].
  { destruct (isna (customer_id row)); [|eauto].
    destruct (next_free_total (existing_ids e0) (auto_id_counter e0)) as [n ->]. eauto. }
  simpl. clearbody e0. clear e0.
  set (e6 := check_job_classification _ _ _). clearbody e6.
  unfold check_age. destruct (isna (age row)).
  - pose proof (mean_no_diverge (map age (df e6))) as Hm.
    destruct (mean (map age (df e6))) as [avg| |]; simpl; [|discriminate|done].
    set (e7 := repair _ _ _ _ _). clearbody e7.
    unfold check_balance, check_outlier, py_lt, py_gt.
    destruct (isna (balance row)), (balance row), balance_thresh as [t|];
      simpl; try done; repeat case_match; done.
  - simpl. unfold check_balance, check_outlier, py_lt, py_gt.
    destruct (isna (balance row)), (balance row), balance_thresh as [t|];
      simpl; try done; repeat case_match; done.
Qed.

Lemma iterrows_no_diverge balance_thresh snapshot :
  forall i e issues fixes, loop balance_thresh snapshot i e issues fixes <> Diverge.
Proof.
  induction snapshot as [|row rest IH]; intros i e issues fixes; simpl; [discriminate|].
  pose proof (row_body_no_diverge balance_thresh i row e) as Hb.
  destruct (body balance_thresh i row e) as [e'| |]; simpl; [apply IH|discriminate|done].
Qed.

Lemma validate_frame_no_diverge raw : validate raw <> Diverge.
Proof.
  unfold validate_frame.
  match goal with |- context [iterrows ?a ?b ?c ?d ?e ?f ?g] =>
    pose proof (iterrows_no_diverge b c d e f g) as H;
    destruct (iterrows a b c d e f g) as [[[ef issues] fixes]| |]
  end; simpl; [discriminate|discriminate|done].
Qed.

(** *** How the validator can raise *)

Lemma row_body_raise_inv balance_thresh i row e ex :
  body balance_thresh i row e = Raise ex ->
  (isna (age row) = true /\ mean (map age (df e)) = Raise ex)
  \/ exists s, balance row = Str s.
Proof.
  unfold row_body. intros H.
  destruct (check_customer_id i row _) as [e1| |] eqn:H1; simpl in H; [|exfalso|done].
  2:{ unfold check_customer_id in H1. repeat case_match; done. }
  apply check_customer_id_inv in H1 as (new_id & D1 & _). simpl in D1.
  unfold check_job_classification, check_region, check_gender, check_surname,
    check_name in H.
  repeat match goal with
         | H : context [if ?b then repair ?i ?put ?it ?ft ?e0 else ?e0] |- _ =>
             let X := fresh "X" in
             destruct (repair_when b i put it ft e0) as (?D & _);
             set (X := if b then repair i put it ft e0 else e0) in *;
             clearbody X
         end.
  lazymatch type of H with
  | context [check_age i row ?e6] =>
      assert (map age (df e6) = map age (df e)) as Hages
  end.
  { repeat match goal with H : df _ = _ |- _ => try rewrite H in *; clear H end.
    rewrite !at_set_twice. apply map_at_set. intros r.
    destruct (isna (customer_id row)), (isna (name row)), (isna (surname row)),
      (isna (gender row)), (isna (region row)), (isna (job_classification row));
      reflexivity. }
  unfold check_age in H. destruct (isna (age row)) eqn:Hna.
  - destruct (mean _) as [avg| |] eqn:Hmean; simpl in H.
    + right. unfold check_balance, check_outlier, py_lt, py_gt in H.
      destruct (balance row) as [|s|y]; [|eauto|]; exfalso;
        simpl in H; repeat case_match; simpl in *; try done.
    + left. split; [done|]. rewrite <- Hages. congruence.
    + done.
  - right. simpl in H. unfold check_balance, check_outlier, py_lt, py_gt in H.
    destruct (balance row) as [|s|y]; [|eauto|]; exfalso;
      simpl in H; repeat case_match; simpl in *; try done.
Qed.

Lemma iterrows_raise_inv balance_thresh raw e0 ex n :
  forall i e issues fixes,
    length (drop i raw) = n ->
    reaches to_datetime_ok balance_thresh raw e0 i e ->
    loop balance_thresh (drop i raw) i e issues fixes = Raise ex ->
    exists k row ek,
      reaches to_datetime_ok balance_thresh raw e0 k ek
      /\ raw !! k = Some row
      /\ body balance_thresh k row ek = Raise ex.
Proof.
  induction n as [|n IH]; intros i e issues fixes Hn Hreach Hrun.
  - apply nil_length_inv in Hn. rewrite Hn in Hrun. done.
  - destruct (raw !! i) as [row|] eqn:Hrow.
    2:{ apply lookup_ge_None in Hrow. rewrite length_drop in Hn. lia. }
    rewrite (drop_S _ _ _ Hrow) in Hrun, Hn. simpl in Hrun, Hn.
    destruct (body balance_thresh i row e) as [e1| |] eqn:Hbody; simpl in Hrun.
    + apply IH in Hrun; [done|lia|]. econstructor; eauto.
    + injection Hrun as <-. exists i, row, e. auto.
    + done.
Qed.

Lemma validate_frame_raise_inv raw ex :
  validate raw = Raise ex ->
  exists k row ek,
    run_of raw k ek /\ rows raw !! k = Some row
    /\ body (threshold_of raw) k row ek = Raise ex.
Proof.
  unfold validate_frame. intros H.
  match type of H with
  | context [iterrows ?a ?b ?c ?d ?e ?f ?g] =>
      destruct (iterrows a b c d e f g) as [[[ef issues] fixes]|ex'|] eqn:Hloop
  end; simpl in H; [done| |done].
  assert (ex' = ex) as -> by congruence.
  eapply (iterrows_raise_inv (threshold_of raw) (rows raw) (initial_env str_of_num raw)
            ex (length (rows raw)) 0).
  - by rewrite drop_0.
  - constructor.
  - rewrite drop_0. exact Hloop.
Qed.

(** *** The rows of the output *)

Lemma validate_frame_row raw out i row :
  validate raw = Ret out ->
  rows raw !! i = Some row ->
  exists e new_id avg_age bad above,
    run_of raw i e
    /\ rows out !! i
       = Some (set_derived (Str (join "; " (issues_for row bad above)))
                           (Str (join "; " (fixes_for row new_id avg_age bad)))
                           (effect row new_id avg_age bad row))
    /\ balance_is_bad (balance row) = Ret bad
    /\ balance_is_outlier (threshold_of raw) (balance row) = Ret above
    /\ (isna (age row) = true -> mean (map age (df e)) = Ret avg_age)
    /\ (isna (customer_id row) = true ->
        exists n, next_free (S (size (existing_ids e))) (existing_ids e)
                            (auto_id_counter e) = Some n
                  /\ new_id = auto_id n).
Proof.
  intros Hrun Hrow.
  apply validate_frame_inv in Hrun as (_ & _ & ef & _ & Hrows).
  destruct (Hrows i row Hrow) as (e & e' & r' & Hreach & Hbody & _ & Hr' & Hout).
  pose proof (reaches_ahead (threshold_of raw) (rows raw) (initial_env str_of_num raw)
                eq_refl i e i Hreach (le_n i)) as Hi. simpl in Hi. rewrite Hrow in Hi.
  apply row_body_inv in Hbody
    as (new_id & avg_age & bad & above & Hdf & Hiss & Hfix & Hbad & Habove & Havg & Hid).
  rewrite Hdf in Hr'. unfold at_set in Hr'.
  rewrite list_lookup_alter_eq, Hi in Hr'. injection Hr' as <-.
  exists e, new_id, avg_age, bad, above.
  rewrite Hout, Hiss, Hfix. repeat split; auto.
  intros Hna. rewrite Hna in Hid. destruct Hid as (n & Hn & -> & _). eauto.
Qed.

(** Rows behind the loop hold what the output holds, up to the two derived
    columns. *)
Lemma run_behind_out raw out i e j :
  validate raw = Ret out ->
  run_of raw i e -> j < i ->
  exists r vi fs, df e !! j = Some r /\ rows out !! j = Some (set_derived vi fs r).
Proof.
  intros Hrun Hreach Hj.
  apply validate_frame_inv in Hrun as (_ & _ & ef & Hfinal & Hrows).
  pose proof (reaches_le _ _ _ _ _ Hreach) as Hle.
  destruct (rows raw !! j) as [rj|] eqn:Hrj.
  2:{ apply lookup_ge_None in Hrj. lia. }
  destruct (Hrows j rj Hrj) as (ej & ej' & r' & Hreachj & Hbody & _ & Hr' & Hout).
  exists r'. do 2 eexists. split; [|exact Hout].
  rewrite <- Hr'.
  eapply (reaches_behind (threshold_of raw) (rows raw) (initial_env str_of_num raw)
                         eq_refl); [exact Hreach|exact Hj|].
  econstructor; eauto.
Qed.

Lemma ids_of_Str cells s : Str s ∈ cells -> s ∈ ids_of str_of_num cells.
Proof.
  induction cells as [|v cells IH]; [by intros ?%elem_of_nil|].
  intros [<-|Hin]%elem_of_cons; simpl; [set_solver|].
  specialize (IH Hin). destruct (isna v); [done|]. destruct v; set_solver.
Qed.

(** C5: every id the validator generates is [AUTO-n] for the least
    [n >= 100001] whose token is neither a pre-existing id nor an id
    generated for an earlier row; it is not among the pre-existing ids, and
    it differs from the id of every other row of the output.  The search
    for it always ends. *)
Theorem auto_ids_fresh_and_distinct raw :
  validate raw <> Diverge
  /\ forall out i row row',
      validate raw = Ret out ->
      rows raw !! i = Some row -> isna (customer_id row) = true ->
      rows out !! i = Some row' ->
      exists n,
        customer_id row' = Str (auto_id n) /\ (100001 <= n)%N
        /\ auto_id n ∉ ids0 raw
        /\ (forall m, (100001 <= m < n)%N ->
              auto_id m ∈ ids0 raw
              \/ exists j, j < i /\ generated_at raw (rows out) j (Str (auto_id m)))
        /\ (forall j rj', j <> i -> rows out !! j = Some rj' ->
              customer_id rj' <> customer_id row').
Proof.
  split; [apply validate_frame_no_diverge|].
  intros out i row row' Hrun Hrow Hna Hout.
  destruct (validate_frame_row raw out i row Hrun Hrow)
    as (e & new_id & avg_age & bad & above & Hreach & Hout' & _ & _ & _ & Hid).
  destruct (Hid Hna) as (n & Hn & ->). clear Hid.
  rewrite Hout in Hout'. injection Hout' as ->.
  apply next_free_spec in Hn as (Hle & Hfree & Hbelow).
  destruct (run_ids raw i e Hreach) as (HA & HB & HC & HD & _).
  exists n. simpl. rewrite Hna.
  split; [done|]. split; [lia|]. split; [set_solver|]. split.
  - intros m Hm.
    assert (auto_id m ∈ existing_ids e) as Hin.
    { destruct (decide (m < auto_id_counter e)%N); [apply HD; lia|apply Hbelow; lia]. }
    destruct (HC _ Hin) as [?|(j & Hj & rj & r & Hrj & Hnaj & Hr & Hcid)]; [by left|].
    right. exists j. split; [done|].
    destruct (run_behind_out raw out i e j Hrun Hreach Hj) as (r0 & vi & fs & Hr0 & Hoj).
    exists rj, (set_derived vi fs r0). repeat split; auto. simpl. congruence.
  - intros j rj' Hne Hoj.
    pose proof Hrun as Hinv.
    apply validate_frame_inv in Hinv as (_ & Hlen & ef & Hfinal & Hrows).
    destruct (rows raw !! j) as [rj|] eqn:Hrj.
    2:{ apply lookup_ge_None in Hrj. apply lookup_lt_Some in Hoj. lia. }
    destruct (isna (customer_id rj)) eqn:Hnaj.
    + assert (forall k rk rk', rows raw !! k = Some rk -> isna (customer_id rk) = true ->
                rows out !! k = Some rk' ->
                generated_at raw (df ef) k (customer_id rk')) as Hgen.
      { intros k rk rk' Hrk Hnak Hok.
        destruct (Hrows k rk Hrk) as (ek & ek' & r' & _ & _ & Hef & Hr' & Hok').
        rewrite Hok in Hok'. injection Hok' as ->.
        exists rk, r'. repeat split; auto. congruence. }
      destruct (run_ids raw _ ef Hfinal) as (_ & _ & _ & _ & _ & HF).
      apply lookup_lt_Some in Hrow as Hi. apply lookup_lt_Some in Hrj as Hj.
      pose proof (Hgen j rj rj' Hrj Hnaj Hoj) as Hgj.
      pose proof (Hgen i row _ Hrow Hna Hout) as Hgi. simpl in Hgi. rewrite Hna in Hgi.
      destruct (decide (j < i)).
      * apply (HF j i); [lia|done..].
      * intros Heq. apply (HF i j (Str (auto_id n)) (customer_id rj')); [lia|done..].
    + destruct (validate_frame_row raw out j rj Hrun Hrj)
        as (? & ? & ? & ? & ? & _ & Hoj' & _).
      rewrite Hoj in Hoj'. injection Hoj' as ->. simpl. rewrite Hnaj.
      destruct (customer_id rj) as [|s|y] eqn:Hc; [done| |done].
      intros [= ->]. apply Hfree, HB, ids_of_Str.
      apply list_elem_of_fmap. exists rj. split; [done|].
      by apply list_elem_of_lookup_2 with j.
Qed.

(** *** The age column along the loop *)

(** When row [i] is reached, the age column holds the ages of the output
    above row [i] and the raw ages from row [i] on. *)
Lemma run_age_column raw out i e :
  validate raw = Ret out ->
  run_of raw i e ->
  map age (df e) = map age (take i (rows out)) ++ map age (drop i (rows raw)).
Proof.
  intros Hrun Hreach.
  pose proof (reaches_le _ _ _ _ _ Hreach) as Hle.
  pose proof (reaches_length (threshold_of raw) (rows raw) (initial_env str_of_num raw)
                eq_refl _ _ Hreach) as Hlen.
  pose proof Hrun as Hinv. apply validate_frame_inv in Hinv as (_ & Hlen' & _).
  apply list_eq. intros j. rewrite <- fmap_app, !list_lookup_fmap.
  destruct (decide (j < i)) as [Hj|Hj].
  - rewrite lookup_app_l by (rewrite length_take; lia).
    rewrite lookup_take_lt by done.
    destruct (run_behind_out raw out i e j Hrun Hreach Hj) as (r & vi & fs & -> & ->).
    done.
  - rewrite lookup_app_r by (rewrite length_take; lia).
    rewrite length_take, lookup_drop.
    replace (i + (j - i `min` length (rows out))) with j by lia.
    f_equal.
    apply (reaches_ahead (threshold_of raw) (rows raw) (initial_env str_of_num raw)
                         eq_refl i e j Hreach). lia.
Qed.

Lemma elem_of_when_true note : note ∈ when true note.
Proof. apply list_elem_of_singleton. done. Qed.

(** C1, as the code has it: a row whose age is absent in the raw frame
    receives the mean of the present ages of the column as it stands when
    the row is reached, that is, of the ages already written to the rows
    above it and of the raw ages from it on; the mean is computed anew at
    each such row.  The fix text of the row records the value with one
    digit after the point.  For the first row with an absent age, the
    column is still the raw one. *)
Theorem age_filled_with_running_mean raw out i row row' :
  validate raw = Ret out ->
  rows raw !! i = Some row -> isna (age row) = true ->
  rows out !! i = Some row' ->
  exists avg_age fix_text,
    mean (map age (take i (rows out)) ++ map age (drop i (rows raw))) = Ret avg_age
    /\ age row' = Num avg_age
    /\ fix_suggestions row' = Str fix_text
    /\ "Filled age with average age " +:+ format_1f avg_age ∈ issue_pieces fix_text
    /\ ((forall j rj, j < i -> rows raw !! j = Some rj -> isna (age rj) = false) ->
        mean (map age (rows raw)) = Ret avg_age).
Proof.
  intros Hrun Hrow Hna Hout.
  destruct (validate_frame_row raw out i row Hrun Hrow)
    as (e & new_id & avg_age & bad & above & Hreach & Hout' & _ & _ & Havg & Hid).
  rewrite Hout in Hout'. injection Hout' as ->.
  specialize (Havg Hna). rewrite (run_age_column raw out i e Hrun Hreach) in Havg.
  exists avg_age, (join "; " (fixes_for row new_id avg_age bad)). simpl. rewrite Hna.
  split; [exact Havg|]. split; [done|]. split; [done|]. split.
  - rewrite issue_pieces_join.
    2:{ apply fixes_of_plain. intros Hc. destruct (Hid Hc) as (n & _ & ->). eauto. }
    unfold fixes_of. rewrite Hna.
    do 6 (apply elem_of_app; right). apply elem_of_app; left. apply elem_of_when_true.
  - intros Hfirst. rewrite <- Havg. f_equal.
    rewrite <- (take_drop i (rows raw)) at 1. rewrite fmap_app. f_equal.
    apply list_eq. intros j. rewrite !list_lookup_fmap.
    destruct (decide (j < i)) as [Hj|Hj].
    + rewrite !lookup_take_lt by done.
      destruct (rows raw !! j) as [rj|] eqn:Hrj.
      * destruct (validate_frame_row raw out j rj Hrun Hrj)
          as (? & ? & ? & ? & ? & _ & -> & _).
        simpl. by rewrite (Hfirst j rj Hj Hrj).
      * apply lookup_ge_None in Hrj. apply lookup_lt_Some in Hrow. lia.
    + rewrite !lookup_take_ge by lia. done.
Qed.

(** *** Running the validator on its own output *)

(** A row without notes had no defect. *)
Lemma issues_clean row bad above :
  join "; " (issues_for row bad above) = "" ->
  isna (customer_id row) = false /\ isna (name row) = false
  /\ isna (surname row) = false /\ isna (gender row) = false
  /\ isna (region row) = false /\ isna (job_classification row) = false
  /\ isna (age row) = false /\ bad = false
  /\ to_datetime_ok (date_joined row) = true /\ above = false.
Proof.
  intros H. apply join_empty_inv in H.
  2:{ unfold issues_of. repeat apply Forall_app_2; by apply when_nonempty. }
  unfold issues_of in H.
  repeat match type of H with
         | _ ++ _ = [] => apply app_eq_nil in H as [?%when_nil_inv H]
         end.
  apply when_nil_inv in H.
  repeat split; try done. by destruct (to_datetime_ok (date_joined row)).
Qed.

Lemma balance_repaired_is_good b bad :
  balance_is_bad b = Ret bad ->
  balance_is_bad (if bad then Num 0%float else b) = Ret false.
Proof. destruct bad; [reflexivity|done]. Qed.

(** When the validator returns on a frame with an absent age, no age of
    its output is a text. *)
Lemma no_text_age_after raw out i row :
  validate raw = Ret out ->
  rows raw !! i = Some row -> isna (age row) = true ->
  Forall not_text (map age (rows out)).
Proof.
  intros Hrun Hrow Hna.
  destruct (validate_frame_row raw out i row Hrun Hrow)
    as (e & ? & avg_age & ? & ? & Hreach & _ & _ & _ & Havg & _).
  specialize (Havg Hna). apply mean_Ret_inv in Havg.
  rewrite (run_age_column raw out i e Hrun Hreach) in Havg.
  apply Forall_app in Havg as [Habove Hfrom].
  rewrite <- (take_drop i (rows out)), fmap_app. apply Forall_app. split; [done|].
  apply Forall_lookup. intros j v. rewrite list_lookup_fmap, lookup_drop.
  destruct (rows out !! (i + j)) as [r|] eqn:Hr; [|done]. intros [= <-].
  destruct (rows raw !! (i + j)) as [rj|] eqn:Hrj.
  2:{ apply validate_frame_inv in Hrun as (_ & Hlen & _).
      apply lookup_ge_None in Hrj. apply lookup_lt_Some in Hr. lia. }
  destruct (validate_frame_row raw out (i + j) rj Hrun Hrj)
    as (? & ? & ? & ? & ? & _ & Hout & _).
  rewrite Hr in Hout. injection Hout as ->. simpl.
  destruct (isna (age rj)); [done|].
  eapply Forall_lookup_1; [exact Hfrom|]. by rewrite list_lookup_fmap, lookup_drop, Hrj.
Qed.

(** The loop writes no text into the age column. *)
Lemma run_no_text_age raw i e :
  Forall not_text (map age (rows raw)) ->
  run_of raw i e -> Forall not_text (map age (df e)).
Proof.
  intros Hraw. induction 1 as [|i row e e1 H IH Hrow Hbody]; [done|].
  apply row_body_inv in Hbody as (new_id & avg_age & bad & above & -> & _).
  apply Forall_lookup. intros j v. rewrite list_lookup_fmap. unfold at_set.
  destruct (decide (i = j)) as [->|Hne].
  - rewrite list_lookup_alter_eq. destruct (df e !! j) as [r|] eqn:Hr; [|done].
    intros [= <-]. simpl. destruct (isna (age row)); [done|].
    eapply Forall_lookup_1; [exact IH|]. by rewrite list_lookup_fmap, Hr.
  - rewrite list_lookup_alter_ne by done. intros Hv.
    eapply Forall_lookup_1; [exact IH|]. by rewrite list_lookup_fmap.
Qed.

(** The cells of a row of the output that no later run repairs. *)
Lemma output_row_sound raw out i r1 :
  to_datetime_ok (Str "01.Jan.00") = true ->
  validate raw = Ret out -> rows out !! i = Some r1 ->
  isna (customer_id r1) = false /\ isna (name r1) = false
  /\ isna (surname r1) = false /\ isna (gender r1) = false
  /\ isna (region r1) = false /\ isna (job_classification r1) = false
  /\ balance_is_bad (balance r1) = Ret false
  /\ to_datetime_ok (date_joined r1) = true
  /\ (isna (age r1) = true ->
      exists r0, rows raw !! i = Some r0 /\ isna (age r0) = true).
Proof.
  intros Hsentinel Hrun Hr1.
  destruct (rows raw !! i) as [r0|] eqn:Hr0.
  2:{ apply validate_frame_inv in Hrun as (_ & Hlen & _).
      apply lookup_ge_None in Hr0. apply lookup_lt_Some in Hr1. lia. }
  destruct (validate_frame_row raw out i r0 Hrun Hr0)
    as (e & new_id & avg_age & bad & above & _ & Hout & Hbad & _).
  rewrite Hr1 in Hout. injection Hout as ->. simpl.
  repeat split.
  - by destruct (isna (customer_id r0)) eqn:?.
  - by destruct (isna (name r0)) eqn:?.
  - by destruct (isna (surname r0)) eqn:?.
  - by destruct (isna (gender r0)) eqn:?.
  - by destruct (isna (region r0)) eqn:?.
  - by destruct (isna (job_classification r0)) eqn:?.
  - by apply balance_repaired_is_good.
  - destruct (to_datetime_ok (date_joined r0)) eqn:Hok; [exact Hok|exact Hsentinel].
  - intros Hna. exists r0. split; [done|].
    destruct (isna (age r0)) eqn:?; congruence.
Qed.

(** The validator returns on its own output. *)
Lemma validate_again_returns raw out1 :
  to_datetime_ok (Str "01.Jan.00") = true ->
  validate raw = Ret out1 -> exists out2, validate out1 = Ret out2.
Proof.
  intros Hsentinel Hrun.
  destruct (validate out1) as [out2|ex|] eqn:Hagain; [eauto|exfalso|exfalso].
  2:{ by apply validate_frame_no_diverge in Hagain. }
  apply validate_frame_raise_inv in Hagain as (k & row & ek & Hreach & Hrow & Hbody).
  destruct (output_row_sound raw out1 k row Hsentinel Hrun Hrow)
    as (_ & _ & _ & _ & _ & _ & Hbal & _ & Hage).
  apply row_body_raise_inv in Hbody as [[Hna Hmean]|[s Hs]].
  - destruct (Hage Hna) as (r0 & Hr0 & Hna0).
    pose proof (no_text_age_after raw out1 k r0 Hrun Hr0 Hna0) as Hnotext.
    apply (run_no_text_age out1 k ek) in Hnotext; [|done].
    apply mean_Ret in Hnotext as [a Ha]. congruence.
  - rewrite Hs in Hbal. done.
Qed.

(** C9, as the code has it: the validator returns on its own output; the
    second run changes no cell of a required column that is present after
    the first run (of the nine required columns only an age left absent
    by the first run can change); and a row that ended the first run
    without notes ends the second run without notes or with the single
    note "Outlier in balance", the threshold being computed anew from the
    repaired balances. *)
Theorem revalidation_keeps_valid_fields raw out1 :
  to_datetime_ok (Str "01.Jan.00") = true ->
  validate raw = Ret out1 ->
  exists out2,
    validate out1 = Ret out2
    /\ forall i r1, rows out1 !! i = Some r1 ->
       exists r2,
         rows out2 !! i = Some r2
         /\ customer_id r2 = customer_id r1 /\ name r2 = name r1
         /\ surname r2 = surname r1 /\ gender r2 = gender r1
         /\ region r2 = region r1 /\ job_classification r2 = job_classification r1
         /\ date_joined r2 = date_joined r1 /\ balance r2 = balance r1
         /\ (isna (age r1) = false -> age r2 = age r1)
         /\ (validation_issues r1 = Str "" ->
             validation_issues r2 = Str ""
             \/ validation_issues r2 = Str "Outlier in balance").
Proof.
  intros Hsentinel Hrun.
  destruct (validate_again_returns raw out1 Hsentinel Hrun) as [out2 Hagain].
  exists out2. split; [exact Hagain|]. intros i r1 Hr1.
  destruct (output_row_sound raw out1 i r1 Hsentinel Hrun Hr1)
    as (Hcid & Hname & Hsur & Hgen & Hreg & Hjob & Hbal & Hdate & _).
  destruct (validate_frame_row out1 out2 i r1 Hagain Hr1)
    as (e & new_id & avg_age & bad & above & _ & Hout & Hbad & _).
  assert (bad = false) as -> by congruence.
  eexists. split; [exact Hout|]. simpl.
  rewrite Hcid, Hname, Hsur, Hgen, Hreg, Hjob, Hdate.
  repeat split; try done.
  - by intros ->.
  - intros Hclean.
    destruct (rows raw !! i) as [r0|] eqn:Hr0.
    2:{ apply validate_frame_inv in Hrun as (_ & Hlen & _).
        apply lookup_ge_None in Hr0. apply lookup_lt_Some in Hr1. lia. }
    destruct (validate_frame_row raw out1 i r0 Hrun Hr0)
      as (? & ? & ? & bad1 & above1 & _ & Hout1 & _).
    rewrite Hr1 in Hout1. injection Hout1 as ->. simpl in *.
    injection Hclean as Hclean. apply issues_clean in Hclean
      as (_ & _ & _ & _ & _ & _ & Hage & _).
    unfold issues_of. simpl.
    rewrite Hcid, Hname, Hsur, Hgen, Hreg, Hjob, Hdate, Hage. simpl.
    rewrite ?Hage. simpl. destruct above; auto.
Qed.

End ValidatorFacts.

(** ** The validator on sample frames *)

Lemma cell_congr (v w : value) (f : value -> bool) : v = w -> f v = f w.
Proof. by intros ->. Qed.

(** C1, the claim as stated fails on [ages_frame]: the ages present in the raw
    frame are 9, 31, 93, 69 and 99, with mean 60.2; the row at index 2
    receives that mean, the row at index 5 receives the mean of the column
    in which index 2 is already filled, which is the next float below. *)
Lemma age_fill_differs_from_raw_mean :
  ~ (forall out i row row' avg_age,
        sample_validate ages_frame = Ret out ->
        rows ages_frame !! i = Some row -> isna (age row) = true ->
        rows out !! i = Some row' ->
        mean (map age (rows ages_frame)) = Ret avg_age ->
        age row' = Num avg_age).
Proof.
  intros Hclaim.
  assert (age (set_derived (Str "Missing age") (Str "Filled age with average age 60.2")
                           (set_age (Num 0x1.e199999999999p+5%float) clean_row))
          = Num 0x1.e19999999999ap+5%float) as Heq.
  { apply (Hclaim (output_of ages_frame) 5 (set_age NA clean_row)).
    - vm_compute. reflexivity.
    - vm_compute. reflexivity.
    - vm_compute. reflexivity.
    - vm_compute. reflexivity.
    - vm_compute. reflexivity. }
  apply (cell_congr _ _ (fun v => match v with
                                  | Num x => PrimFloat.ltb x 0x1.e19999999999ap+5%float
                                  | _ => false
                                  end)) in Heq.
  discriminate Heq.
Qed.

(** The two filled ages of [ages_frame] differ in the last binary digit, and
    both are recorded as 60.2. *)
Example ages_frame_output :
  map (fun r => (age r, fix_suggestions r)) (rows (output_of ages_frame))
  = [(Num 9%float, Str ""); (Num 31%float, Str "");
     (Num 0x1.e19999999999ap+5%float, Str "Filled age with average age 60.2");
     (Num 93%float, Str ""); (Num 69%float, Str "");
     (Num 0x1.e199999999999p+5%float, Str "Filled age with average age 60.2");
     (Num 99%float, Str "")].
Proof. vm_compute. reflexivity. Qed.

(** On a column of eight cells the order of the sum shows: the second
    filled age of [eight_ages_frame] is the mean taken from the eight running
    sums, 55.666666666666664, where adding the cells in order would give
    55.666666666666671. *)
Example eight_ages_frame_output :
  map age (rows (output_of eight_ages_frame))
  = [Num 56%float; Num 37%float; Num 48%float; Num 59%float; Num 58%float;
     Num 76%float; Num 0x1.bd55555555555p+5%float; Num 0x1.bd55555555555p+5%float]
  /\ (add_in_order [56; 37; 48; 59; 58; 76; 0x1.bd55555555555p+5; 0]%float 0%float / 7)%float
     = 0x1.bd55555555556p+5%float.
Proof. split; vm_compute; reflexivity. Qed.

Lemma age_filled_with_running_mean_witness :
  sample_validate ages_frame = Ret (output_of ages_frame)
  /\ exists avg_age,
      mean (map age (take 5 (rows (output_of ages_frame)))
            ++ map age (drop 5 (rows ages_frame))) = Ret avg_age
      /\ Num 0x1.e199999999999p+5%float = Num avg_age.
Proof.
  split; [vm_compute; reflexivity|].
  destruct (age_filled_with_running_mean
              sample_str_of_num sample_to_datetime_ok ages_frame (output_of ages_frame) 5
              (set_age NA clean_row)
              (set_derived (Str "Missing age") (Str "Filled age with average age 60.2")
                           (set_age (Num 0x1.e199999999999p+5%float) clean_row)))
    as (avg_age & notes & Hmean & Hage & _).
  - vm_compute. reflexivity.
  - vm_compute. reflexivity.
  - vm_compute. reflexivity.
  - vm_compute. reflexivity.
  - exists avg_age. split; [exact Hmean|exact Hage].
Defined.

(** C2, the code at a frame without any age: the mean of the empty column
    is nan, nan is written to the cells, and the ages remain absent although
    the fix text says they were filled. *)
Lemma ageless_frame_stays_ageless :
  sample_validate ageless_frame = Ret (output_of ageless_frame)
  /\ map (fun r => isna (age r)) (rows (output_of ageless_frame)) = [true; true]
  /\ map fix_suggestions (rows (output_of ageless_frame))
     = [Str "Filled age with average age nan";
        Str "Filled age with average age nan"].
Proof.
  split; [vm_compute; reflexivity|]. split; vm_compute; reflexivity.
Qed.

(** C3, the code at a frame whose balance column holds a text: the test
    [row['balance'] < 0] of line 90 raises [TypeError], which nothing
    catches. *)
Lemma text_balance_raises :
  validate_data sample_str_of_num sample_to_datetime_ok (state_of text_balance_frame)
  = Raise TypeError.
Proof. vm_compute. reflexivity. Qed.

(** C4, the code at a frame whose 99th percentile is 0: the balance 5000 of
    the last row exceeds the threshold, and the row receives no note. *)
Lemma zero_threshold_hides_outlier :
  threshold_of zero_threshold_frame = Some 0%float
  /\ sample_validate zero_threshold_frame = Ret (output_of zero_threshold_frame)
  /\ (balance <$> rows (output_of zero_threshold_frame) !! 100) = Some (Num 5000%float)
  /\ py_gt (Num 5000%float) 0%float = Ret true
  /\ (validation_issues <$> rows (output_of zero_threshold_frame) !! 100) = Some (Str "").
Proof.
  split; [vm_compute; reflexivity|]. split; [vm_compute; reflexivity|].
  split; [vm_compute; reflexivity|]. split; vm_compute; reflexivity.
Qed.

(** The outlier example of the specification: the threshold is about 960.4 and
    only the balance 1000 is flagged, without a fix text. *)
Example outlier_frame_output :
  threshold_of outlier_frame = Some 0x1.e033333333333p+9%float
  /\ map (fun r => (validation_issues r, fix_suggestions r))
         (rows (output_of outlier_frame))
     = [(Str "", Str ""); (Str "", Str ""); (Str "", Str ""); (Str "", Str "");
        (Str "Outlier in balance", Str "")].
Proof. split; vm_compute; reflexivity. Qed.

Lemma auto_ids_fresh_and_distinct_witness :
  map customer_id (rows (output_of ids_frame))
  = [Str "AUTO-100003"; Str "AUTO-100002"; Str "AUTO-100004"; Str "AUTO-100001";
     Str "AUTO-100005"]
  /\ exists n, Str "AUTO-100004" = Str (auto_id n) /\ (100001 <= n)%N.
Proof.
  split; [vm_compute; reflexivity|].
  destruct (proj2 (auto_ids_fresh_and_distinct sample_str_of_num sample_to_datetime_ok
                     ids_frame)
              (output_of ids_frame) 2 (set_customer_id NA clean_row)
              (set_derived (Str "Missing customer_id")
                           (Str "Auto-generated ID: AUTO-100004")
                           (set_customer_id (Str "AUTO-100004") clean_row)))
    as (n & Hn & Hle & _).
  - vm_compute. reflexivity.
  - vm_compute. reflexivity.
  - vm_compute. reflexivity.
  - vm_compute. reflexivity.
  - exists n. split; [exact Hn|exact Hle].
Defined.

(** C9, the claim as stated fails on [revalidation_frame]: the first row ends
    the first run without notes; the first run sets the absent balance of the
    second row to 0, which lowers the threshold of the second run from 5 to
    4.95, and the second run flags the first row. *)
Lemma revalidation_flags_clean_row :
  ~ (forall out1 out2 i r1 r2,
        sample_validate revalidation_frame = Ret out1 ->
        sample_validate out1 = Ret out2 ->
        rows out1 !! i = Some r1 -> rows out2 !! i = Some r2 ->
        validation_issues r1 = Str "" -> validation_issues r2 = Str "").
Proof.
  intros Hclaim.
  assert (validation_issues
            (set_derived (Str "Outlier in balance") (Str "")
                         (set_balance (Num 5%float) clean_row)) = Str "") as Heq.
  { apply (Hclaim (output_of revalidation_frame)
                  (output_of (output_of revalidation_frame)) 0
                  (set_derived (Str "") (Str "") (set_balance (Num 5%float) clean_row))).
    - vm_compute. reflexivity.
    - vm_compute. reflexivity.
    - vm_compute. reflexivity.
    - vm_compute. reflexivity.
    - reflexivity. }
  discriminate Heq.
Qed.

Example revalidation_frame_outputs :
  threshold_of revalidation_frame = Some 5%float
  /\ threshold_of (output_of revalidation_frame) = Some 0x1.3cccccccccccdp+2%float
  /\ map validation_issues (rows (output_of revalidation_frame))
     = [Str ""; Str "Missing or negative balance"]
  /\ map validation_issues (rows (output_of (output_of revalidation_frame)))
     = [Str "Outlier in balance"; Str ""].
Proof.
  split; [vm_compute; reflexivity|]. split; [vm_compute; reflexivity|].
  split; vm_compute; reflexivity.
Qed.

Lemma revalidation_keeps_valid_fields_witness :
  sample_to_datetime_ok (Str "01.Jan.00") = true
  /\ sample_validate revalidation_frame = Ret (output_of revalidation_frame)
  /\ exists out2,
      sample_validate (output_of revalidation_frame) = Ret out2
      /\ forall r1, rows (output_of revalidation_frame) !! 1 = Some r1 ->
         exists r2, rows out2 !! 1 = Some r2 /\ balance r2 = balance r1.
Proof.
  split; [vm_compute; reflexivity|]. split; [vm_compute; reflexivity|].
  destruct (revalidation_keeps_valid_fields sample_str_of_num sample_to_datetime_ok
              revalidation_frame (output_of revalidation_frame))
    as (out2 & Hagain & Hrows).
  - vm_compute. reflexivity.
  - vm_compute. reflexivity.
  - exists out2. split; [exact Hagain|]. intros r1 Hr1.
    destruct (Hrows 1 r1 Hr1) as (r2 & Hr2 & _ & _ & _ & _ & _ & _ & _ & Hbal & _).
    exists r2. split; [exact Hr2|exact Hbal].
Defined.

(** ** Extraction of the SQL statement *)

Lemma semicolon_from_S n s : semicolon_from (S n) s = true -> semicolon_from n s = true.
Proof.
  revert s. induction n as [|n IH]; intros [|c s]; simpl; try done.
  - destruct (Ascii.eqb c ";"); [done|]. by destruct (until_semicolon s).
  - destruct s as [|c' s]; [done|]. intros H. by apply (IH (String c' s)).
Qed.

Lemma match_keyword_select s matched rest :
  match_keyword "SELECT" s = Some (matched, rest) ->
  exists c1 c2 c3 c4 c5 c6,
    s = String c1 (String c2 (String c3 (String c4 (String c5 (String c6 rest)))))
    /\ matched = String c1 (String c2 (String c3 (String c4 (String c5 (String c6 "")))))
    /\ lower matched = "select".
Proof.
  intros H.
  destruct s as [|c1 [|c2 [|c3 [|c4 [|c5 [|c6 s]]]]]]; cbn [match_keyword] in H.
  all: repeat (match type of H with
               | context [Ascii.eqb ?a ?b] =>
                   destruct (Ascii.eqb a b) eqn:?; [|discriminate H]
               end).
  all: try discriminate H.
  injection H as <- <-. exists c1, c2, c3, c4, c5, c6.
  split; [reflexivity|]. split; [reflexivity|]. cbn [lower].
  repeat match goal with
         | H : Ascii.eqb _ _ = true |- _ =>
             apply Ascii.eqb_eq in H; rewrite <- H; clear H
         end.
  reflexivity.
Qed.

Lemma match_at_semicolon s group1 : match_at s = Some group1 -> semicolon_from 7 s = true.
Proof.
  unfold match_at. destruct (match_keyword "SELECT" s) as [[matched rest]|] eqn:Hkw; [|done].
  apply match_keyword_select in Hkw as (c1 & c2 & c3 & c4 & c5 & c6 & -> & _).
  unfold lazy_any_then_semicolon. destruct rest as [|c rest]; [done|]. simpl.
  by destruct (until_semicolon rest).
Qed.

Lemma re_search_semicolon s group1 : re_search s = Some group1 -> semicolon_from 7 s = true.
Proof.
  revert group1. induction s as [|c s IH]; intros group1; cbn [re_search].
  - intros H. vm_compute in H. discriminate H.
  - destruct (match_at (String c s)) as [g|] eqn:Hat.
    + intros _. by apply match_at_semicolon in Hat.
    + intros H. apply IH in H. apply semicolon_from_S. exact H.
Qed.

(** The search stops at the first occurrence of the keyword: if no statement
    starts there, none starts later. *)
Lemma re_search_find_keyword s :
  re_search s
  = match find_keyword "SELECT" s with
    | Some (matched, rest) =>
        match lazy_any_then_semicolon rest with
        | Some body => Some (matched +:+ body)
        | None => None
        end
    | None => None
    end.
Proof.
  induction s as [|c s IH].
  - reflexivity.
  - cbn [re_search find_keyword]. unfold match_at at 1.
    destruct (match_keyword "SELECT" (String c s)) as [[matched rest]|] eqn:Hkw; [|exact IH].
    destruct (lazy_any_then_semicolon rest) as [body|] eqn:Hlazy; [done|].
    destruct (re_search s) as [g|] eqn:Hlater; [exfalso|done].
    apply re_search_semicolon in Hlater.
    apply match_keyword_select in Hkw as (c1 & c2 & c3 & c4 & c5 & c6 & Hs & _).
    injection Hs as -> ->. simpl in Hlater.
    unfold lazy_any_then_semicolon in Hlazy.
    destruct rest as [|c7 [|c8 rest]]; try done. simpl in Hlater, Hlazy.
    destruct (Ascii.eqb c8 ";"); [done|].
    destruct (until_semicolon rest); done.
Qed.

Lemma append_assoc (a b c : string) : (a +:+ b) +:+ c = a +:+ (b +:+ c).
Proof.
  induction a as [|x a IH]; [reflexivity|].
  change (String x ((a +:+ b) +:+ c) = String x (a +:+ (b +:+ c))).
  by rewrite IH.
Qed.

Lemma extract_sql_unfold text :
  extract_sql text
  = match find_keyword "SELECT" (strip text) with
    | Some (matched, String c rest) =>
        match until_semicolon rest with
        | Some body => matched +:+ String c body +:+ ";"
        | None => ""
        end
    | _ => ""
    end.
Proof.
  unfold extract_sql. rewrite re_search_find_keyword.
  destruct (find_keyword "SELECT" (strip text)) as [[matched [|c rest]]|];
    [reflexivity| |reflexivity].
  unfold lazy_any_then_semicolon.
  destruct (until_semicolon rest) as [body|]; [|reflexivity].
  apply append_assoc.
Qed.

(** C6, as the code has it: the extracted text starts at the first [SELECT]
    keyword of the stripped reply, case ignored, takes the character after
    the keyword whatever it is, and runs to the first semicolon after that
    character, which ends it; it is empty when the reply has no keyword, when
    nothing follows the keyword, or when no semicolon follows the character
    after it.  On the reply of the specification the result is the statement
    given there. *)
Theorem extract_sql_first_select text :
  extract_sql text
  = match find_keyword "SELECT" (strip text) with
    | Some (matched, String c rest) =>
        match until_semicolon rest with
        | Some body => matched +:+ String c body +:+ ";"
        | None => ""
        end
    | _ => ""
    end
  /\ extract_sql spec_reply = "SELECT * FROM customers WHERE age < 30;".
Proof. split; [apply extract_sql_unfold|vm_compute; reflexivity]. Qed.

(** C6, the claim as stated fails on a reply in which a semicolon follows the
    keyword at once: the next semicolon ends the substring [SELECT], and the
    code returns the text up to the semicolon after it. *)
Lemma extract_sql_skips_adjacent_semicolon :
  spec_extract_sql (strip "SELECT;x;") = "SELECT;"
  /\ extract_sql "SELECT;x;" = "SELECT;x;"
  /\ extract_sql "SELECT;x;" <> spec_extract_sql (strip "SELECT;x;").
Proof. repeat split; vm_compute; done. Qed.

(** Where the two readings agree: the character after the keyword is not a
    semicolon. *)
Lemma extract_sql_agrees_with_spec text matched c rest :
  find_keyword "SELECT" (strip text) = Some (matched, String c rest) ->
  c <> ";"%char ->
  extract_sql text = spec_extract_sql (strip text).
Proof.
  intros Hfind Hc. rewrite extract_sql_unfold.
  unfold spec_extract_sql. rewrite Hfind. simpl.
  destruct (Ascii.eqb c ";") eqn:Heq; [by apply Ascii.eqb_eq in Heq|].
  destruct (until_semicolon rest) as [body|]; reflexivity.
Qed.

(** ** The question-answering agents *)

Lemma try_except_Ret {A : Type} (m : outcome A) (a : A) :
  (forall ex, m <> Raise ex) ->
  try_except m (fun _ => Ret a) = m.
Proof. destruct m; simpl; [done| |done]. intros H. by destruct (H e). Qed.

Lemma run_llm_sql_unfold w state :
  run_llm_sql w state
  = match model_reply w state with
    | Ret response_text => Ret (with_sql (extract_sql response_text) state)
    | Raise _ => Ret (with_failed_sql state)
    | Diverge => Diverge
    end.
Proof.
  unfold run_llm_sql, model_reply.
  destruct (connect w) as [[]| |]; simpl; try done.
  destruct (read_sql w _) as [head| |]; simpl; try done.
  destruct (getitem (question state)) as [question_text| |]; simpl; try done.
  destruct (generate_content w _) as [response_text| |]; simpl; done.
Qed.

(** C7, as the code has it: the stage never raises; when a call of its [try]
    block raises, it returns the empty SQL text and the status FAILED; when
    the model replies, it returns the extracted text, which is empty when the
    reply holds no statement, and leaves the status as it found it: it sets
    neither OK nor FAILED. *)
Theorem run_llm_sql_outcomes w state :
  (forall ex, run_llm_sql w state <> Raise ex)
  /\ (forall ex, model_reply w state = Raise ex ->
        run_llm_sql w state = Ret (with_failed_sql state))
  /\ (forall response_text, model_reply w state = Ret response_text ->
        exists state',
          run_llm_sql w state = Ret state'
          /\ sql state' = Some (extract_sql response_text)
          /\ status state' = status state).
Proof.
  rewrite run_llm_sql_unfold. repeat split.
  - intros ex. by destruct (model_reply w state).
  - by intros ex ->.
  - intros response_text ->. eexists. repeat split.
Qed.

Lemma run_llm_sql_outcomes_witness :
  model_reply (sample_world (Raise OtherError)) (question_state "How many?")
  = Raise OtherError
  /\ run_llm_sql (sample_world (Raise OtherError)) (question_state "How many?")
     = Ret (with_failed_sql (question_state "How many?")).
Proof.
  split; [vm_compute; reflexivity|].
  apply (proj1 (proj2 (run_llm_sql_outcomes (sample_world (Raise OtherError))
                                            (question_state "How many?")))
           OtherError).
  vm_compute. reflexivity.
Defined.

(** C7, the claim as stated fails twice: on a reply without [SELECT] the SQL
    text is empty and the status is not FAILED, and on a reply with a
    statement the status is not OK; in both the state has no status, as it
    had none when the stage was entered. *)
Lemma run_llm_sql_sets_no_status :
  (exists state',
      run_llm_sql (sample_world (Ret "I cannot answer that.")) (question_state "How many?")
      = Ret state'
      /\ sql state' = Some "" /\ status state' <> Some FAILED)
  /\ (exists state',
        run_llm_sql (sample_world (Ret spec_reply)) (question_state "Who is young?")
        = Ret state'
        /\ sql state' = Some "SELECT * FROM customers WHERE age < 30;"
        /\ status state' <> Some OK).
Proof. split; eexists; repeat split; vm_compute; done. Qed.

Lemma execute_sql_unfold w state :
  execute_sql w state
  = match query_result w state with
    | Ret df_result => Ret (with_result df_result OK state)
    | Raise _ => Ret (with_result empty_table FAILED state)
    | Diverge => Diverge
    end.
Proof.
  unfold execute_sql, query_result.
  destruct (connect w) as [[]| |]; simpl; try done.
  destruct (getitem (sql state)) as [sql_text| |]; simpl; try done.
  destruct (read_sql w sql_text) as [df_result| |]; simpl; done.
Qed.

(** C8: the executor never raises; when the store returns a table for the
    SQL text, it returns that table with the status OK; when a call of its
    [try] block raises, as the store does on a text it cannot run, the empty
    text included, it returns the empty table with the status FAILED. *)
Theorem execute_sql_outcomes w state :
  (forall ex, execute_sql w state <> Raise ex)
  /\ (forall df_result, query_result w state = Ret df_result ->
        execute_sql w state = Ret (with_result df_result OK state))
  /\ (forall ex, query_result w state = Raise ex ->
        execute_sql w state = Ret (with_result empty_table FAILED state))
  /\ (forall sql_text ex,
        connect w = Ret tt -> sql state = Some sql_text ->
        read_sql w sql_text = Raise ex ->
        execute_sql w state = Ret (with_result empty_table FAILED state)).
Proof.
  rewrite execute_sql_unfold. repeat split.
  - intros ex. by destruct (query_result w state).
  - by intros df_result ->.
  - by intros ex ->.
  - intros sql_text ex Hc Hs Hr. unfold query_result. rewrite Hc, Hs. simpl.
    by rewrite Hr.
Qed.

Lemma execute_sql_outcomes_witness :
  read_sql (sample_world (Ret "")) "" = Raise TypeError
  /\ execute_sql (sample_world (Ret "")) (with_sql "" (question_state "How many?"))
     = Ret (with_result empty_table FAILED (with_sql "" (question_state "How many?")))
  /\ execute_sql (sample_world (Ret "")) (with_sql "SELECT 1;" (question_state "How many?"))
     = Ret (with_result sample_table OK (with_sql "SELECT 1;" (question_state "How many?"))).
Proof.
  split; [reflexivity|]. split.
  - apply (proj2 (proj2 (proj2 (execute_sql_outcomes
                                  (sample_world (Ret ""))
                                  (with_sql "" (question_state "How many?")))))
             "" TypeError); reflexivity.
  - apply (proj1 (proj2 (execute_sql_outcomes
                           (sample_world (Ret ""))
                           (with_sql "SELECT 1;" (question_state "How many?"))))
             sample_table).
    reflexivity.
Defined.

(** ** The issue summary *)

Lemma prefix_cons_inv a needle hay :
  String.prefix (String a needle) hay = true ->
  exists hay', hay = String a hay' /\ String.prefix needle hay' = true.
Proof.
  destruct hay as [|b hay]; simpl; [discriminate|].
  destruct (ascii_dec a b) as [<-|]; [eauto|discriminate].
Qed.

Lemma prefix_contains needle hay : String.prefix needle hay = true -> contains needle hay = true.
Proof. intros H. destruct hay; cbn [contains]; rewrite H; reflexivity. Qed.

Lemma contains_cons needle c hay :
  contains needle hay = true -> contains needle (String c hay) = true.
Proof. intros H. cbn [contains]. rewrite H. apply orb_true_r. Qed.

Lemma contains_surname_name s : contains "surname" s = true -> contains "name" s = true.
Proof.
  induction s as [|c s IH]; [intros H; vm_compute in H; discriminate H|].
  cbn [contains]. intros [Hpre|Hrest]%orb_true_iff.
  - apply prefix_cons_inv in Hpre as (s1 & [= -> ->] & Hpre).
    apply prefix_cons_inv in Hpre as (s2 & -> & Hpre).
    apply prefix_cons_inv in Hpre as (s3 & -> & Hpre).
    change (contains "name" (String "s" (String "u" (String "r" s3))) = true).
    do 3 apply contains_cons. by apply prefix_contains.
  - change (contains "name" (String c s) = true). apply contains_cons. auto.
Qed.

Lemma issue_col_not_surname issue : issue_col issue <> "surname".
Proof.
  unfold issue_col.
  destruct (contains "customer_id" (lower issue)); [done|].
  destruct (contains "name" (lower issue)) eqn:Hname; [done|].
  destruct (contains "surname" (lower issue)) eqn:Hsur.
  - apply contains_surname_name in Hsur. congruence.
  - repeat case_match; done.
Qed.

Lemma count_issue_other col issue_type other
      (issue_tracker : gmap string (gmap string nat)) :
  col <> other -> count_issue col issue_type issue_tracker !! other = issue_tracker !! other.
Proof. intros Hne. unfold count_issue. by rewrite lookup_insert_ne. Qed.

Lemma track_issue_surname piece (issue_tracker : gmap string (gmap string nat)) :
  issue_tracker !! "surname" = None -> track_issue piece issue_tracker !! "surname" = None.
Proof.
  intros H. unfold track_issue. destruct (strip piece) as [|c s] eqn:Hs; [done|].
  rewrite count_issue_other; [done|apply issue_col_not_surname].
Qed.

Lemma track_val_surname val (issue_tracker : gmap string (gmap string nat)) :
  issue_tracker !! "surname" = None -> track_val val issue_tracker !! "surname" = None.
Proof.
  unfold track_val. destruct val as [|c s]; [done|].
  generalize (split_semicolon (String c s)). intros pieces. revert issue_tracker.
  induction pieces as [|piece pieces IH]; intros issue_tracker H; simpl; [done|].
  apply IH. by apply track_issue_surname.
Qed.

Lemma track_all_surname issue_summary : track_all issue_summary !! "surname" = None.
Proof.
  unfold track_all.
  assert (forall (t : gmap string (gmap string nat)),
             t !! "surname" = None ->
             foldl (fun t val => track_val val t) t issue_summary !! "surname" = None) as H.
  { induction issue_summary as [|val rest IH]; intros t Ht; simpl; [done|].
    apply IH. by apply track_val_surname. }
  by apply H.
Qed.

(** C10, as the code has it: the substrings are tested in a fixed order,
    [customer_id] first, then [name], then [surname]; an issue text that
    contains [surname] in its lower-case form is counted under [customer_id]
    when it contains that too, and under [name] otherwise, as "Missing
    surname" is; no issue text is counted under [surname], and the summary of
    no column of issue cells has a [surname] bucket. *)
Theorem surname_counted_under_name issue :
  issue_col issue <> "surname"
  /\ (contains "surname" (lower issue) = true ->
      issue_col issue
      = if contains "customer_id" (lower issue) then "customer_id" else "name")
  /\ issue_col "Missing surname" = "name"
  /\ forall issue_summary, track_all issue_summary !! "surname" = None.
Proof.
  split; [apply issue_col_not_surname|]. split; [|split].
  - intros Hsur. unfold issue_col.
    destruct (contains "customer_id" (lower issue)); [done|].
    by rewrite (contains_surname_name _ Hsur).
  - vm_compute. reflexivity.
  - apply track_all_surname.
Qed.

Lemma surname_counted_under_name_witness :
  contains "surname" (lower "Missing SURNAME of customer") = true
  /\ issue_col "Missing SURNAME of customer" = "name".
Proof.
  split; [vm_compute; reflexivity|].
  apply (proj1 (proj2 (surname_counted_under_name "Missing SURNAME of customer"))).
  vm_compute. reflexivity.
Defined.

(** C10, the claim as stated fails on an issue text that names both columns:
    it contains [surname] and is counted under [customer_id]. *)
Lemma surname_counted_under_customer_id :
  contains "surname" (lower "Missing customer_id and surname") = true
  /\ issue_col "Missing customer_id and surname" = "customer_id"
  /\ issue_col "Missing customer_id and surname" <> "name".
Proof. repeat split; vm_compute; done. Qed.

(** * Further properties of the code *)

(** ** The validator, cell by cell *)

Section ValidatorMore.

Variable str_of_num : float -> string.
Variable to_datetime_ok : value -> bool.

Abbreviation validate' := (validate_frame str_of_num to_datetime_ok).
Abbreviation run_of' raw :=
  (reaches to_datetime_ok (threshold_of raw) (rows raw) (initial_env str_of_num raw)).

Lemma output_row_exists raw out i row :
  validate' raw = Ret out -> rows raw !! i = Some row ->
  exists row', rows out !! i = Some row'.
Proof.
  intros Hrun Hrow.
  destruct (validate_frame_row str_of_num to_datetime_ok raw out i row Hrun Hrow)
    as (? & ? & ? & ? & ? & _ & Hout & _).
  eauto.
Qed.

(** The validator keeps the rows, their order and the dtype of the balance
    column, and a cell of a required column changes only when its rule
    fires: an absent name, surname, gender, region or job classification
    becomes the literal of its rule, an absent or negative balance becomes
    0.0, a date the parser rejects becomes [01.Jan.00]; every other cell of
    these columns, every present id and every present age are as in the raw
    frame. *)
Theorem validated_cells raw out :
  validate' raw = Ret out ->
  length (rows out) = length (rows raw)
  /\ balance_dtype out = balance_dtype raw
  /\ forall i row row',
      rows raw !! i = Some row -> rows out !! i = Some row' ->
      name row' = (if isna (name row) then Str "Unknown" else name row)
      /\ surname row' = (if isna (surname row) then Str "Unknown" else surname row)
      /\ gender row' = (if isna (gender row) then Str "Not Specified" else gender row)
      /\ region row' = (if isna (region row) then Str "Unknown" else region row)
      /\ job_classification row'
         = (if isna (job_classification row) then Str "Other"
            else job_classification row)
      /\ date_joined row'
         = (if to_datetime_ok (date_joined row) then date_joined row
            else Str "01.Jan.00")
      /\ (exists bad, balance_is_bad (balance row) = Ret bad
                      /\ balance row' = if bad then Num 0%float else balance row)
      /\ (isna (customer_id row) = false -> customer_id row' = customer_id row)
      /\ (isna (age row) = false -> age row' = age row).
Proof.
  intros Hrun.
  pose proof Hrun as Hinv. apply validate_frame_inv in Hinv as (Hdtype & Hlen & _).
  split; [exact Hlen|]. split; [exact Hdtype|].
  intros i row row' Hrow Hout.
  destruct (validate_frame_row str_of_num to_datetime_ok raw out i row Hrun Hrow)
    as (e & new_id & avg_age & bad & above & _ & Hout' & Hbad & _).
  rewrite Hout in Hout'. injection Hout' as ->. cbn.
  do 6 (split; [reflexivity|]).
  split; [exists bad; split; [exact Hbad|reflexivity]|].
  split; intros ->; reflexivity.
Qed.

(** After validation the id, the name, the surname, the gender, the region,
    the job classification and the balance of every row are present, and the
    balance is a number that is not negative. *)
Theorem repaired_columns_present raw out i row' :
  validate' raw = Ret out -> rows out !! i = Some row' ->
  isna (customer_id row') = false /\ isna (name row') = false
  /\ isna (surname row') = false /\ isna (gender row') = false
  /\ isna (region row') = false /\ isna (job_classification row') = false
  /\ exists x, balance row' = Num x /\ PrimFloat.is_nan x = false
               /\ PrimFloat.ltb x 0%float = false.
Proof.
  intros Hrun Hout.
  destruct (rows raw !! i) as [row|] eqn:Hrow.
  2:{ apply validate_frame_inv in Hrun as (_ & Hlen & _).
      apply lookup_ge_None in Hrow. apply lookup_lt_Some in Hout. lia. }
  destruct (validate_frame_row str_of_num to_datetime_ok raw out i row Hrun Hrow)
    as (e & new_id & avg_age & bad & above & _ & Hout' & Hbad & _).
  rewrite Hout in Hout'. injection Hout' as ->. cbn.
  split; [by destruct (isna (customer_id row)) eqn:?|].
  split; [by destruct (isna (name row)) eqn:?|].
  split; [by destruct (isna (surname row)) eqn:?|].
  split; [by destruct (isna (gender row)) eqn:?|].
  split; [by destruct (isna (region row)) eqn:?|].
  split; [by destruct (isna (job_classification row)) eqn:?|].
  destruct bad.
  - exists 0%float. split; [reflexivity|]. split; reflexivity.
  - unfold balance_is_bad in Hbad. destruct (balance row) as [|s|x]; try done.
    cbn in Hbad. destruct (PrimFloat.is_nan x) eqn:Hnan; [done|].
    injection Hbad as Hlt. exists x. split; [reflexivity|]. split; [exact Hnan|exact Hlt].
Qed.

Lemma fixes_clean row new_id avg_age bad :
  join "; " (fixes_of to_datetime_ok row new_id avg_age bad) = "" ->
  isna (customer_id row) = false /\ isna (name row) = false
  /\ isna (surname row) = false /\ isna (gender row) = false
  /\ isna (region row) = false /\ isna (job_classification row) = false
  /\ isna (age row) = false /\ bad = false
  /\ to_datetime_ok (date_joined row) = true.
Proof.
  intros H. apply join_empty_inv in H.
  2:{ unfold fixes_of. repeat apply Forall_app_2; by apply when_nonempty. }
  unfold fixes_of in H.
  repeat match type of H with
         | _ ++ _ = [] => apply app_eq_nil in H as [?%when_nil_inv H]
         end.
  apply when_nil_inv in H.
  repeat split; try done. by destruct (to_datetime_ok (date_joined row)).
Qed.

(** The notes account for the repairs: a row without fix text has its nine
    required cells as in the raw frame, and a row without issue text has no
    fix text. *)
Theorem unnoted_rows_unchanged raw out i row row' :
  validate_frame str_of_num to_datetime_ok raw = Ret out ->
  rows raw !! i = Some row -> rows out !! i = Some row' ->
  (fix_suggestions row' = Str "" ->
   customer_id row' = customer_id row /\ name row' = name row
   /\ surname row' = surname row /\ gender row' = gender row
   /\ age row' = age row /\ region row' = region row
   /\ job_classification row' = job_classification row
   /\ date_joined row' = date_joined row /\ balance row' = balance row)
  /\ (validation_issues row' = Str "" -> fix_suggestions row' = Str "").
Proof.
  intros Hrun Hrow Hout.
  destruct (validate_frame_row str_of_num to_datetime_ok raw out i row Hrun Hrow)
    as (e & new_id & avg_age & bad & above & _ & Hout' & _).
  rewrite Hout in Hout'. injection Hout' as ->. cbn. split.
  - intros [= Hfix]. apply fixes_clean in Hfix
      as (-> & -> & -> & -> & -> & -> & -> & -> & ->).
    repeat split.
  - intros [= Hiss]. apply (issues_clean to_datetime_ok) in Hiss
      as (Hc & Hn & Hs & Hg & Hr & Hj & Ha & -> & Hd & _).
    unfold fixes_of. rewrite Hc, Hn, Hs, Hg, Hr, Hj, Ha, Hd. reflexivity.
Qed.

Lemma length_when b note : length (when b note) = if b then 1 else 0.
Proof. by destruct b. Qed.

Lemma elem_of_when note b other : note ∈ when b other <-> b = true /\ note = other.
Proof.
  destruct b; simpl.
  - rewrite list_elem_of_singleton. split; [intros ->; split; reflexivity|intros [_ H]; exact H].
  - rewrite elem_of_nil. split; [intros []|intros [H _]; discriminate H].
Qed.

(** *** When the validator returns *)





(** The ids generated in one run increase with the rows: a row further down
    receives a larger number. *)
Theorem auto_ids_increase raw out j1 j2 r1 r2 r1' r2' :
  validate' raw = Ret out -> j1 < j2 ->
  rows raw !! j1 = Some r1 -> isna (customer_id r1) = true ->
  rows raw !! j2 = Some r2 -> isna (customer_id r2) = true ->
  rows out !! j1 = Some r1' -> rows out !! j2 = Some r2' ->
  exists n1 n2,
    customer_id r1' = Str (auto_id n1) /\ customer_id r2' = Str (auto_id n2)
    /\ (n1 < n2)%N.
Proof.
  intros Hrun Hlt Hr1 Hna1 Hr2 Hna2 Ho1 Ho2.
  destruct (validate_frame_row str_of_num to_datetime_ok raw out j2 r2 Hrun Hr2)
    as (e & new_id & avg_age & bad & above & Hreach & Hout & _ & _ & _ & Hid).
  destruct (Hid Hna2) as (n2 & Hn2 & ->). clear Hid.
  rewrite Ho2 in Hout. injection Hout as ->.
  apply next_free_spec in Hn2 as (Hle & _).
  destruct (run_ids str_of_num to_datetime_ok raw j2 e Hreach) as (_ & _ & _ & _ & HE & _).
  destruct (run_behind_out str_of_num to_datetime_ok raw out j2 e j1 Hrun Hreach Hlt)
    as (r & vi & fs & Hr & Hoj).
  rewrite Ho1 in Hoj. injection Hoj as ->.
  destruct (HE j1 (customer_id r) Hlt) as (n1 & Hn1 & Hm & _).
  { exists r1, r. auto. }
  exists n1, n2. cbn. rewrite Hna2. split; [exact Hn1|]. split; [reflexivity|lia].
Qed.

End ValidatorMore.

Lemma validated_cells_witness :
  exists row',
    rows (output_of revalidation_frame) !! 1 = Some row'
    /\ balance row' = Num 0%float /\ name row' = Str "Ann".
Proof.
  exists (set_derived (Str "Missing or negative balance") (Str "Filled balance with 0")
                      (set_balance (Num 0%float) clean_row)).
  split; [vm_compute; reflexivity|].
  destruct (proj2 (proj2 (validated_cells sample_str_of_num sample_to_datetime_ok
                            revalidation_frame (output_of revalidation_frame)
                            ltac:(vm_compute; reflexivity)))
              1 (set_balance NA clean_row)
              (set_derived (Str "Missing or negative balance")
                           (Str "Filled balance with 0")
                           (set_balance (Num 0%float) clean_row))
              ltac:(vm_compute; reflexivity) ltac:(vm_compute; reflexivity))
    as (Hname & _).
  split; [reflexivity|exact Hname].
Defined.


Lemma repaired_columns_present_witness :
  exists x, Num 0%float = Num x /\ PrimFloat.is_nan x = false
            /\ PrimFloat.ltb x 0%float = false.
Proof.
  destruct (repaired_columns_present
              sample_str_of_num sample_to_datetime_ok revalidation_frame
              (output_of revalidation_frame) 1
              (set_derived (Str "Missing or negative balance")
                           (Str "Filled balance with 0")
                           (set_balance (Num 0%float) clean_row))
              ltac:(vm_compute; reflexivity) ltac:(vm_compute; reflexivity))
    as (_ & _ & _ & _ & _ & _ & Hbal).
  exact Hbal.
Defined.

Lemma unnoted_rows_unchanged_witness :
  balance (set_derived (Str "") (Str "") (set_balance (Num 5%float) clean_row))
  = balance (set_balance (Num 5%float) clean_row).
Proof.
  destruct (proj1 (unnoted_rows_unchanged
                     sample_str_of_num sample_to_datetime_ok revalidation_frame
                     (output_of revalidation_frame) 0
                     (set_balance (Num 5%float) clean_row)
                     (set_derived (Str "") (Str "") (set_balance (Num 5%float) clean_row))
                     ltac:(vm_compute; reflexivity) ltac:(vm_compute; reflexivity)
                     ltac:(vm_compute; reflexivity))
              eq_refl)
    as (_ & _ & _ & _ & _ & _ & _ & _ & Hbal).
  exact Hbal.
Defined.


Lemma auto_ids_increase_witness :
  exists n1 n2,
    Str "AUTO-100003" = Str (auto_id n1) /\ Str "AUTO-100005" = Str (auto_id n2)
    /\ (n1 < n2)%N.
Proof.
  exact (auto_ids_increase
           sample_str_of_num sample_to_datetime_ok ids_frame (output_of ids_frame) 0 4
           (set_customer_id NA clean_row) (set_customer_id NA clean_row)
           (set_derived (Str "Missing customer_id") (Str "Auto-generated ID: AUTO-100003")
                        (set_customer_id (Str "AUTO-100003") clean_row))
           (set_derived (Str "Missing customer_id") (Str "Auto-generated ID: AUTO-100005")
                        (set_customer_id (Str "AUTO-100005") clean_row))
           ltac:(vm_compute; reflexivity) ltac:(lia)
           ltac:(vm_compute; reflexivity) ltac:(vm_compute; reflexivity)
           ltac:(vm_compute; reflexivity) ltac:(vm_compute; reflexivity)
           ltac:(vm_compute; reflexivity) ltac:(vm_compute; reflexivity)).
Defined.

(** ** Saving the cleaned data, and the validation graph *)

Lemma merge_key_same {A : Type} (x : option A) : merge_key x x = x.
Proof. by destruct x. Qed.

Lemma merge_state_with_sql s state :
  merge_state (with_sql s state) state = with_sql s state.
Proof. unfold merge_state, with_sql. cbn. by rewrite !merge_key_same. Qed.

Lemma merge_state_with_failed_sql state :
  merge_state (with_failed_sql state) state = with_failed_sql state.
Proof. unfold merge_state, with_failed_sql. cbn. by rewrite !merge_key_same. Qed.

Lemma merge_state_with_result t st state :
  merge_state (with_result t st state) state = with_result t st state.
Proof. unfold merge_state, with_result. cbn. by rewrite !merge_key_same. Qed.

Lemma merge_state_same state : merge_state state state = state.
Proof. destruct state. unfold merge_state. cbn. by rewrite !merge_key_same. Qed.

(** The validation graph on a state that holds a raw frame writes to the
    store once, after the validator has returned and the database has
    opened: the frame handed to [to_sql], for the table [customers], is the
    cleaned frame, which has one row for each raw row.  When the write
    returns, the final state holds that frame under [df_raw] and
    [df_validated] with status OK and keeps its other keys; when the write
    raises, the graph raises the same exception.  When the validator raises,
    or the database does not open, the graph raises the same exception and
    no write is made. *)
Theorem validation_graph_writes_cleaned_frame
        str_of_num to_datetime_ok s state raw writes :
  df_raw state = Some raw ->
  (forall out,
      validate_frame str_of_num to_datetime_ok raw = Ret out ->
      open_database s = Ret tt ->
      length (rows out) = length (rows raw)
      /\ (validation_graph str_of_num to_datetime_ok s state writes).2
         = writes ++ [("customers", out)]
      /\ (to_sql s "customers" out = Ret tt ->
          exists final,
            (validation_graph str_of_num to_datetime_ok s state writes).1 = Ret final
            /\ df_raw final = Some out /\ df_validated final = Some out
            /\ status final = Some OK
            /\ question final = question state /\ sql final = sql state
            /\ result final = result state)
      /\ (forall ex,
            to_sql s "customers" out = Raise ex ->
            (validation_graph str_of_num to_datetime_ok s state writes).1 = Raise ex))
  /\ (forall ex,
        validate_frame str_of_num to_datetime_ok raw = Raise ex ->
        validation_graph str_of_num to_datetime_ok s state writes = (Raise ex, writes))
  /\ (forall out ex,
        validate_frame str_of_num to_datetime_ok raw = Ret out ->
        open_database s = Raise ex ->
        validation_graph str_of_num to_datetime_ok s state writes = (Raise ex, writes)).
Proof.
  intros Hraw. unfold validation_graph, validate_data. rewrite Hraw. cbn.
  split; [|split].
  - intros out Hrun Hopen. rewrite Hrun. cbn. unfold store_to_sqlite. cbn.
    rewrite Hopen. split.
    { by apply validate_frame_inv in Hrun as (_ & -> & _). }
    split.
    { by destruct (to_sql s "customers" out). }
    split.
    + intros ->. eexists. split; [reflexivity|]. cbn.
      rewrite !merge_key_same. repeat split.
    + intros ex ->. reflexivity.
  - intros ex ->. reflexivity.
  - intros out ex Hrun Hopen. rewrite Hrun. cbn. unfold store_to_sqlite. cbn.
    rewrite Hopen. reflexivity.
Qed.

Lemma validation_graph_writes_cleaned_frame_witness :
  (validation_graph sample_str_of_num sample_to_datetime_ok sample_store
                    (state_of revalidation_frame) []).2
  = [("customers", output_of revalidation_frame)]
  /\ exists final,
      (validation_graph sample_str_of_num sample_to_datetime_ok sample_store
                        (state_of revalidation_frame) []).1 = Ret final
      /\ df_validated final = Some (output_of revalidation_frame).
Proof.
  destruct (proj1 (validation_graph_writes_cleaned_frame
                     sample_str_of_num sample_to_datetime_ok sample_store
                     (state_of revalidation_frame) revalidation_frame [] eq_refl)
              (output_of revalidation_frame)
              ltac:(vm_compute; reflexivity) eq_refl)
    as (_ & Hwrites & Hfinal & _).
  split; [exact Hwrites|].
  destruct (Hfinal eq_refl) as (final & Hrun & _ & Hvalidated & _).
  exists final. split; [exact Hrun|exact Hvalidated].
Defined.

(** ** The question-answering graph and the chat history *)

Lemma sql_qa_graph_unfold w state :
  sql_qa_graph w state
  = match model_reply w state with
    | Diverge => Diverge
    | reply =>
        let state1 :=
          match reply with
          | Ret response_text => with_sql (extract_sql response_text) state
          | _ => with_failed_sql state
          end in
        match query_result w state1 with
        | Ret df_result => Ret (with_result df_result OK state1)
        | Raise _ => Ret (with_result empty_table FAILED state1)
        | Diverge => Diverge
        end
    end.
Proof.
  unfold sql_qa_graph. rewrite run_llm_sql_unfold.
  destruct (model_reply w state) as [response_text|ex|]; cbn; [| |reflexivity].
  - rewrite merge_state_with_sql, execute_sql_unfold.
    destruct (query_result w _); cbn; rewrite ?merge_state_with_result; reflexivity.
  - rewrite merge_state_with_failed_sql, execute_sql_unfold.
    destruct (query_result w _); cbn; rewrite ?merge_state_with_result; reflexivity.
Qed.

Lemma sql_qa_graph_never_raises w state ex : sql_qa_graph w state <> Raise ex.
Proof.
  rewrite sql_qa_graph_unfold.
  destruct (model_reply w state); cbn; [| |done]; destruct (query_result w _); done.
Qed.

Lemma sql_qa_graph_returns w state :
  model_reply w state <> Diverge ->
  (forall sql_text, read_sql w sql_text <> Diverge) ->
  exists final, sql_qa_graph w state = Ret final.
Proof.
  intros Hreply Hread. rewrite sql_qa_graph_unfold.
  assert (forall state1, exists final,
             match query_result w state1 with
             | Ret df_result => Ret (with_result df_result OK state1)
             | Raise _ => Ret (with_result empty_table FAILED state1)
             | Diverge => Diverge
             end = Ret final) as Hquery.
  { intros state1. unfold query_result.
    destruct (connect w) as [[]|ex|] eqn:Hconnect; cbn; [|eauto|].
    - destruct (getitem (sql state1)) as [sql_text|ex|] eqn:Hsql; cbn; [|eauto|].
      + specialize (Hread sql_text). destruct (read_sql w sql_text); cbn; [eauto|eauto|done].
      + by destruct (sql state1).
    - exfalso. apply Hreply. unfold model_reply. by rewrite Hconnect. }
  destruct (model_reply w state) as [response_text|ex|]; [apply Hquery|apply Hquery|done].
Qed.

Lemma sql_qa_graph_inv w state final :
  sql_qa_graph w state = Ret final ->
  question final = question state
  /\ exists sql_text,
      sql final = Some sql_text
      /\ ((exists response_text,
              model_reply w state = Ret response_text
              /\ sql_text = extract_sql response_text)
          \/ (exists ex, model_reply w state = Raise ex /\ sql_text = ""))
      /\ ((status final = Some OK
           /\ exists df_result,
               read_sql w sql_text = Ret df_result
               /\ result final = Some df_result)
          \/ (status final = Some FAILED /\ result final = Some empty_table
              /\ exists ex, connect w = Raise ex \/ read_sql w sql_text = Raise ex)).
Proof.
  rewrite sql_qa_graph_unfold. intros Hfinal.
  assert (exists state1 sql_text,
             sql state1 = Some sql_text /\ question state1 = question state
             /\ ((exists response_text,
                     model_reply w state = Ret response_text
                     /\ sql_text = extract_sql response_text)
                 \/ (exists ex, model_reply w state = Raise ex /\ sql_text = ""))
             /\ match query_result w state1 with
                | Ret df_result => Ret (with_result df_result OK state1)
                | Raise _ => Ret (with_result empty_table FAILED state1)
                | Diverge => Diverge
                end = Ret final) as (state1 & sql_text & Hsql & Hq & Hfrom & Hrun).
  { destruct (model_reply w state) as [response_text|ex|] eqn:Hreply; [| |done].
    - exists (with_sql (extract_sql response_text) state), (extract_sql response_text).
      repeat split; eauto.
    - exists (with_failed_sql state), "". repeat split; eauto. }
  clear Hfinal. unfold query_result in Hrun. rewrite Hsql in Hrun.
  destruct (connect w) as [[]|ex|] eqn:Hconnect; cbn in Hrun; [| |done].
  - destruct (read_sql w sql_text) as [df_result|ex|] eqn:Hread; cbn in Hrun; [| |done];
      injection Hrun as <-; cbn.
    + split; [done|]. exists sql_text. split; [done|]. split; [done|]. left. eauto.
    + split; [done|]. exists sql_text. split; [done|]. split; [done|]. right. eauto.
  - injection Hrun as <-. cbn.
    split; [done|]. exists sql_text. split; [done|]. split; [done|]. right. eauto.
Qed.

(** The question-answering graph never raises, and it returns when no call
    to the store or to the model hangs.  The state it returns keeps the
    question and holds the SQL text of the generator: the statement
    extracted from the reply of the model when the calls of the generator
    return, the empty text when one of them raises.  Its status and its
    table are those of the executor alone: OK with the table the store
    returned for that text, or FAILED with the empty table when the store
    could not be opened or raised on that text; a FAILED set by the
    generator does not stop the executor and does not survive it. *)
Theorem sql_qa_graph_outcome w state :
  (forall ex, sql_qa_graph w state <> Raise ex)
  /\ (model_reply w state <> Diverge ->
      (forall sql_text, read_sql w sql_text <> Diverge) ->
      exists final, sql_qa_graph w state = Ret final)
  /\ forall final,
      sql_qa_graph w state = Ret final ->
      question final = question state
      /\ exists sql_text,
          sql final = Some sql_text
          /\ ((exists response_text,
                  model_reply w state = Ret response_text
                  /\ sql_text = extract_sql response_text)
              \/ (exists ex, model_reply w state = Raise ex /\ sql_text = ""))
          /\ ((status final = Some OK
               /\ exists df_result,
                   read_sql w sql_text = Ret df_result
                   /\ result final = Some df_result)
              \/ (status final = Some FAILED /\ result final = Some empty_table
                  /\ exists ex, connect w = Raise ex \/ read_sql w sql_text = Raise ex)).
Proof.
  split; [intros ex; apply sql_qa_graph_never_raises|].
  split; [apply sql_qa_graph_returns|apply sql_qa_graph_inv].
Qed.

Lemma sql_qa_graph_outcome_witness :
  exists final,
    sql_qa_graph (sample_world (Ret spec_reply)) (question_state "Who is young?")
    = Ret final
    /\ sql final = Some "SELECT * FROM customers WHERE age < 30;"
    /\ status final = Some OK.
Proof.
  destruct (proj1 (proj2 (sql_qa_graph_outcome (sample_world (Ret spec_reply))
                                               (question_state "Who is young?")))
              ltac:(vm_compute; discriminate)
              ltac:(intros [|c sql_text]; vm_compute; discriminate))
    as [final Hfinal].
  exists final. split; [exact Hfinal|].
  destruct (proj2 (proj2 (sql_qa_graph_outcome (sample_world (Ret spec_reply))
                                               (question_state "Who is young?")))
              final Hfinal)
    as (_ & sql_text & Hsql & [(response_text & Hreply & ->)|(ex & Hreply & _)] & Hstatus).
  - vm_compute in Hreply. injection Hreply as <-.
    split; [exact Hsql|].
    destruct Hstatus as [[Hok _]|(_ & _ & ex & [Hraise|Hraise])];
      [exact Hok|vm_compute in Hraise; discriminate Hraise..].
  - vm_compute in Hreply. discriminate Hreply.
Defined.




(** ** Column names *)

Lemma normal_char_facts (c : ascii) :
  let d := if Ascii.eqb (lower_char c) " " then "_"%char else lower_char c in
  lower_char d = d
  /\ Ascii.eqb d " " = false
  /\ is_space d = is_space c && negb (Ascii.eqb c " ").
Proof.
  destruct c as [[] [] [] [] [] [] [] []]; vm_compute; repeat split.
Qed.

Lemma replace_lower_cons c s :
  replace_spaces (lower (String c s))
  = String (if Ascii.eqb (lower_char c) " " then "_"%char else lower_char c)
           (replace_spaces (lower s)).
Proof. reflexivity. Qed.

Lemma replace_lower_twice s :
  replace_spaces (lower (replace_spaces (lower s))) = replace_spaces (lower s).
Proof.
  induction s as [|c s IH]; [reflexivity|].
  rewrite !replace_lower_cons, IH.
  destruct (normal_char_facts c) as (Hlow & Hsp & _). cbn zeta in Hlow, Hsp.
  by rewrite Hlow, Hsp.
Qed.

Lemma rstrip_twice s : rstrip (rstrip s) = rstrip s.
Proof.
  induction s as [|c s IH]; [reflexivity|]. rewrite rstrip_cons.
  destruct (rstrip s) as [|k kept] eqn:Hs.
  - destruct (is_space c) eqn:Hc; [reflexivity|]. rewrite rstrip_cons. cbn [rstrip].
    by rewrite Hc.
  - rewrite rstrip_cons, IH. reflexivity.
Qed.

Lemma rstrip_head c s :
  is_space c = false -> exists kept, rstrip (String c s) = String c kept.
Proof.
  intros Hc. rewrite rstrip_cons. destruct (rstrip s); [rewrite Hc|]; eauto.
Qed.

Lemma lstrip_head s :
  lstrip s = "" \/ exists c rest, lstrip s = String c rest /\ is_space c = false.
Proof.
  induction s as [|c s IH]; [by left|]. cbn [lstrip].
  destruct (is_space c) eqn:Hc; [exact IH|]. right. eauto.
Qed.

Lemma strip_head s :
  strip s = "" \/ exists c rest, strip s = String c rest /\ is_space c = false.
Proof.
  unfold strip. destruct (lstrip_head s) as [->|(c & rest & -> & Hc)]; [by left|].
  right. destruct (rstrip_head c rest Hc) as [kept ->]. eauto.
Qed.

Lemma rstrip_fixed_replace_lower s :
  rstrip s = s -> rstrip (replace_spaces (lower s)) = replace_spaces (lower s).
Proof.
  induction s as [|c s IH]; [reflexivity|]. rewrite rstrip_cons. intros Hfix.
  rewrite replace_lower_cons, rstrip_cons.
  destruct (normal_char_facts c) as (_ & Hnot & Hspace). cbn zeta in Hnot, Hspace.
  destruct (rstrip s) as [|k kept] eqn:Hs.
  - destruct (is_space c) eqn:Hc; [discriminate Hfix|].
    injection Hfix as <-. cbn [lower replace_spaces rstrip]. rewrite Hspace. reflexivity.
  - injection Hfix as Hfix. rewrite IH by done. rewrite <- Hfix.
    rewrite replace_lower_cons. reflexivity.
Qed.

(** Normalising a column name twice is normalising it once: a normalised
    name has no white space at its ends, no upper-case letter and no
    space. *)
Theorem normalize_column_idempotent c :
  normalize_column (normalize_column c) = normalize_column c.
Proof.
  unfold normalize_column.
  assert (strip (replace_spaces (lower (strip c))) = replace_spaces (lower (strip c)))
    as ->; [|apply replace_lower_twice].
  assert (rstrip (strip c) = strip c) as Hr by apply rstrip_twice.
  apply rstrip_fixed_replace_lower in Hr.
  unfold strip at 1.
  destruct (strip_head c) as [Hs|(k & rest & Hs & Hk)]; rewrite Hs in *; [reflexivity|].
  rewrite replace_lower_cons in *. cbn [lstrip].
  destruct (normal_char_facts k) as (_ & _ & Hspace). cbn zeta in Hspace.
  rewrite Hspace, Hk. cbn. exact Hr.
Qed.

Lemma filter_ext_in (P Q : string -> Prop) `{!forall x, Decision (P x)}
      `{!forall x, Decision (Q x)} (l : list string) :
  (forall x, x ∈ l -> P x <-> Q x) -> filter P l = filter Q l.
Proof.
  induction l as [|x l IH]; intros Hext; [reflexivity|].
  rewrite !filter_cons.
  assert (filter P l = filter Q l) as ->.
  { apply IH. intros y Hy. apply Hext. by right. }
  pose proof (Hext x ltac:(by left)) as Hx.
  destruct (decide (P x)), (decide (Q x)); tauto.
Qed.

Lemma filter_none (P : string -> Prop) `{!forall x, Decision (P x)} (l : list string) :
  (forall x, x ∈ l -> ~ P x) -> filter P l = [].
Proof.
  induction l as [|x l IH]; intros Hnone; [reflexivity|].
  rewrite filter_cons_False by (apply Hnone; by left).
  apply IH. intros y Hy. apply Hnone. by right.
Qed.

Lemma add_missing_fold (expected : list string) :
  NoDup expected ->
  forall columns,
    foldl (fun (cols : list string) (col : string) =>
             if decide (col ∈ cols) then cols else cols ++ [col]) columns expected
    = columns ++ filter (fun col => col ∉ columns) expected.
Proof.
  induction expected as [|col expected IH]; intros Hnodup columns; cbn [foldl].
  - by rewrite filter_nil, app_nil_r.
  - apply NoDup_cons in Hnodup as [Hnotin Hnodup].
    rewrite filter_cons. destruct (decide (col ∈ columns)) as [Hin|Hout].
    + rewrite decide_False by tauto. by apply IH.
    + rewrite decide_True by done. rewrite IH by done.
      rewrite <- app_assoc. cbn. do 2 f_equal.
      apply filter_ext_in. intros c Hc.
      rewrite elem_of_app, list_elem_of_singleton.
      split; [tauto|]. intros H [Hin|Heq]; [tauto|]. subst c. tauto.
Qed.

(** Lines 37-39 keep the columns of the frame in place and append, in the
    order of the expected columns, those that the frame lacks; every
    expected column exists afterwards, and a frame that has them all keeps
    its columns as they are. *)
Theorem add_missing_appends columns :
  add_missing columns = columns ++ filter (fun col => col ∉ columns) expected_cols
  /\ (forall col, col ∈ expected_cols -> col ∈ add_missing columns)
  /\ ((forall col, col ∈ expected_cols -> col ∈ columns) ->
      add_missing columns = columns).
Proof.
  assert (add_missing columns
          = columns ++ filter (fun col => col ∉ columns) expected_cols) as Heq.
  { apply add_missing_fold.
    apply (bool_decide_unpack (NoDup expected_cols)). vm_compute. exact I. }
  split; [exact Heq|]. split.
  - intros col Hcol. rewrite Heq, elem_of_app, list_elem_of_filter.
    destruct (decide (col ∈ columns)); tauto.
  - intros Hall. rewrite Heq.
    replace (filter (fun col => col ∉ columns) expected_cols) with (@nil string);
      [apply app_nil_r|].
    symmetry. apply filter_none. intros col Hcol Hout. apply Hout, Hall, Hcol.
Qed.

Lemma add_missing_appends_witness :
  "balance" ∈ expected_cols
  /\ "balance" ∈ add_missing ["name"; "age"].
Proof.
  assert ("balance" ∈ expected_cols) as Hin.
  { apply (bool_decide_unpack ("balance" ∈ expected_cols)). vm_compute. exact I. }
  split; [exact Hin|].
  apply (proj1 (proj2 (add_missing_appends ["name"; "age"]))). exact Hin.
Defined.

(** ** From the notes of the validator to the counters of the summary *)

(** The cell that the validator writes for a row is read back by the
    summary as the notes of that row: joining notes with "; " and then
    splitting at semicolons, stripping the pieces and dropping the empty
    ones returns the notes, when no note holds a semicolon, has white space
    at its ends or is empty. *)
Theorem issue_pieces_of_joined notes :
  Forall plain_note notes -> issue_pieces (join "; " notes) = notes.
Proof. apply issue_pieces_join. Qed.

Lemma issue_pieces_of_joined_witness :
  Forall plain_note ["Missing name"; "Bad date format"]
  /\ issue_pieces "Missing name; Bad date format" = ["Missing name"; "Bad date format"].
Proof.
  assert (Forall plain_note ["Missing name"; "Bad date format"]) as Hall.
  { repeat constructor; vm_compute; congruence. }
  split; [exact Hall|].
  exact (issue_pieces_of_joined ["Missing name"; "Bad date format"] Hall).
Defined.

(** *** Every issue is counted once *)

Lemma sum_insert_fresh {A : Type} (f : A -> nat) (m : gmap string A) k v :
  m !! k = None ->
  map_fold (fun _ x acc => f x + acc) 0 (<[ k := v ]> m)
  = f v + map_fold (fun _ x acc => f x + acc) 0 m.
Proof.
  intros Hk. apply (map_fold_insert_L (fun _ x acc => f x + acc)); [|exact Hk].
  intros. lia.
Qed.

Lemma sum_insert {A : Type} (f : A -> nat) (m : gmap string A) k v :
  map_fold (fun _ x acc => f x + acc) 0 (<[ k := v ]> m)
  + from_option f 0 (m !! k)
  = f v + map_fold (fun _ x acc => f x + acc) 0 m.
Proof.
  destruct (m !! k) as [x|] eqn:Hk; cbn.
  - rewrite <- (insert_delete_eq m k v).
    rewrite <- (insert_delete_id m k x Hk) at 2.
    rewrite !sum_insert_fresh by apply lookup_delete_eq. lia.
  - rewrite sum_insert_fresh by done. lia.
Qed.

Lemma tracker_total_count col issue_type (issue_tracker : gmap string (gmap string nat)) :
  tracker_total (count_issue col issue_type issue_tracker)
  = S (tracker_total issue_tracker).
Proof.
  unfold count_issue.
  set (bucket := default ∅ (issue_tracker !! col)).
  set (n := default 0 (bucket !! issue_type)).
  assert (tracker_total (<[ col := <[ issue_type := S n ]> bucket ]> issue_tracker)
          + bucket_total bucket
          = bucket_total (<[ issue_type := S n ]> bucket) + tracker_total issue_tracker)
    as Houter.
  { pose proof (sum_insert bucket_total issue_tracker col
                  (<[ issue_type := S n ]> bucket)) as H.
    replace (from_option bucket_total 0 (issue_tracker !! col))
      with (bucket_total bucket) in H; [exact H|].
    unfold bucket. destruct (issue_tracker !! col); [reflexivity|].
    cbn. unfold bucket_total. by rewrite map_fold_empty. }
  assert (bucket_total (<[ issue_type := S n ]> bucket) + n = S n + bucket_total bucket)
    as Hinner.
  { pose proof (sum_insert (fun k : nat => k) bucket issue_type (S n)) as H.
    replace (from_option (fun k : nat => k) 0 (bucket !! issue_type)) with n in H;
      [exact H|].
    unfold n. by destruct (bucket !! issue_type). }
  lia.
Qed.

Lemma track_val_pieces val (issue_tracker : gmap string (gmap string nat)) :
  track_val val issue_tracker
  = foldl (fun t issue => count_issue (issue_col issue) (capitalize (first_word issue)) t)
          issue_tracker (issue_pieces val).
Proof.
  unfold track_val, issue_pieces. destruct val as [|c s]; [reflexivity|].
  generalize (split_semicolon (String c s)). intros pieces. revert issue_tracker.
  induction pieces as [|piece pieces IH]; intros issue_tracker; [reflexivity|].
  cbn [foldl map]. rewrite IH. unfold track_issue at 1.
  rewrite filter_cons. destruct (strip piece) as [|k rest] eqn:Hs.
  - rewrite decide_False by (intros H; by apply H). reflexivity.
  - rewrite decide_True by done. reflexivity.
Qed.

(** The summary counts every issue once: the counters of all buckets add up
    to the number of issues in the cells, whatever the bucket and the type
    an issue falls under. *)
Theorem tracker_counts_every_issue issue_summary :
  tracker_total (track_all issue_summary)
  = length (concat (map issue_pieces issue_summary)).
Proof.
  unfold track_all.
  assert (forall (t : gmap string (gmap string nat)),
             tracker_total (foldl (fun t val => track_val val t) t issue_summary)
             = tracker_total t + length (concat (map issue_pieces issue_summary))) as H.
  { induction issue_summary as [|val rest IH]; intros t; cbn [foldl map concat].
    - cbn. lia.
    - rewrite IH, length_app, track_val_pieces.
      assert (forall (t0 : gmap string (gmap string nat)) issues,
                 tracker_total
                   (foldl (fun t issue =>
                             count_issue (issue_col issue)
                                         (capitalize (first_word issue)) t) t0 issues)
                 = tracker_total t0 + length issues) as Hcount.
      { intros t0 issues. revert t0.
        induction issues as [|issue issues IHi]; intros t0; cbn [foldl length]; [lia|].
        rewrite IHi, tracker_total_count. lia. }
      rewrite Hcount. lia. }
  rewrite H. unfold tracker_total at 1. rewrite map_fold_empty. reflexivity.
Qed.

(** ** The extracted statement *)

Lemma find_keyword_select s matched rest :
  find_keyword "SELECT" s = Some (matched, rest) ->
  exists c1 c2 c3 c4 c5 c6,
    matched = String c1 (String c2 (String c3 (String c4 (String c5 (String c6 "")))))
    /\ lower matched = "select"
    /\ forall rest', match_keyword "SELECT" (matched +:+ rest') = Some (matched, rest').
Proof.
  induction s as [|c s IH]; cbn [find_keyword].
  - intros H. vm_compute in H. discriminate H.
  - destruct (match_keyword "SELECT" (String c s)) as [[m r]|] eqn:Hkw; [|exact IH].
    intros [= -> ->].
    pose proof Hkw as Hsel.
    apply match_keyword_select in Hsel as (c1 & c2 & c3 & c4 & c5 & c6 & Hs & -> & Hlow).
    exists c1, c2, c3, c4, c5, c6. split; [reflexivity|]. split; [exact Hlow|].
    intros rest'. rewrite Hs in Hkw. cbn [match_keyword] in Hkw.
    change (String c1 (String c2 (String c3 (String c4 (String c5 (String c6 ""))))) +:+ rest')
      with (String c1 (String c2 (String c3 (String c4 (String c5 (String c6 rest')))))).
    cbn [match_keyword].
    repeat match type of Hkw with
           | context [Ascii.eqb ?a ?b] =>
               destruct (Ascii.eqb a b) eqn:?; [|discriminate Hkw]
           end.
    reflexivity.
Qed.

Lemma until_semicolon_body s body : until_semicolon s = Some body -> until_semicolon body = None.
Proof.
  revert body. induction s as [|c s IH]; intros body; cbn [until_semicolon]; [done|].
  destruct (Ascii.eqb c ";") eqn:Hc; [by intros [= <-]|].
  destruct (until_semicolon s) as [b|]; [|done]. intros [= <-].
  cbn [until_semicolon]. rewrite Hc. by rewrite (IH b).
Qed.

Lemma until_semicolon_app body rest :
  until_semicolon body = None -> until_semicolon (body +:+ String ";" rest) = Some body.
Proof.
  induction body as [|c body IH]; [reflexivity|]. cbn [until_semicolon].
  change (String c body +:+ String ";" rest) with (String c (body +:+ String ";" rest)).
  cbn [until_semicolon].
  destruct (Ascii.eqb c ";"); [done|].
  destruct (until_semicolon body); [done|]. intros _. by rewrite IH.
Qed.

Lemma extract_sql_parts text :
  extract_sql text = ""
  \/ exists matched c body,
      extract_sql text = matched +:+ String c (body +:+ ";")
      /\ lower matched = "select"
      /\ until_semicolon body = None
      /\ forall rest', match_keyword "SELECT" (matched +:+ rest') = Some (matched, rest').
Proof.
  rewrite extract_sql_unfold.
  destruct (find_keyword "SELECT" (strip text)) as [[matched [|c rest]]|] eqn:Hfind;
    [by left| |by left].
  destruct (until_semicolon rest) as [body|] eqn:Hbody; [|by left].
  right. exists matched, c, body.
  apply find_keyword_select in Hfind as (c1 & c2 & c3 & c4 & c5 & c6 & -> & Hlow & Hkw).
  split; [reflexivity|]. split; [exact Hlow|]. split; [|exact Hkw].
  by apply until_semicolon_body in Hbody.
Qed.

(** A statement that the extraction returns, when it is not empty: a
    [SELECT] keyword in any case, one character, a text without semicolon,
    and the semicolon that ends it. *)
Theorem extract_sql_shape text :
  extract_sql text = ""
  \/ exists matched c body,
      extract_sql text = matched +:+ String c (body +:+ ";")
      /\ lower matched = "select"
      /\ until_semicolon body = None
      /\ forall rest', match_keyword "SELECT" (matched +:+ rest') = Some (matched, rest').
Proof. apply extract_sql_parts. Qed.

Lemma select_head_not_space (c : ascii) :
  Ascii.eqb (lower_char "S") (lower_char c) = true -> is_space c = false.
Proof. destruct c as [[] [] [] [] [] [] [] []]; vm_compute; congruence. Qed.

Lemma rstrip_semicolon_end s : rstrip (s +:+ ";") = s +:+ ";".
Proof.
  induction s as [|c s IH]; [reflexivity|].
  change (String c s +:+ ";") with (String c (s +:+ ";")).
  rewrite rstrip_cons, IH. destruct s; reflexivity.
Qed.

(** Extracting from an extracted statement returns it unchanged. *)
Theorem extract_sql_idempotent text :
  extract_sql (extract_sql text) = extract_sql text.
Proof.
  destruct (extract_sql_parts text) as [->|(matched & c & body & -> & Hlow & Hbody & Hkw)];
    [reflexivity|].
  rewrite extract_sql_unfold.
  assert (strip (matched +:+ String c (body +:+ ";")) = matched +:+ String c (body +:+ ";"))
    as ->.
  { pose proof (Hkw "") as H0.
    apply match_keyword_select in H0 as (c1 & c2 & c3 & c4 & c5 & c6 & _ & Hm & _).
    subst matched.
    pose proof (Hkw "") as H1.
    change (String c1 (String c2 (String c3 (String c4 (String c5 (String c6 ""))))) +:+ "")
      with (String c1 (String c2 (String c3 (String c4 (String c5 (String c6 "")))))) in H1.
    cbn [match_keyword] in H1.
    destruct (Ascii.eqb (lower_char "S") (lower_char c1)) eqn:Hc1; [|discriminate H1].
    apply select_head_not_space in Hc1.
    unfold strip.
    assert (lstrip (String c1 (String c2 (String c3 (String c4 (String c5 (String c6 ""))))) +:+ String c (body +:+ ";"))
            = String c1 (String c2 (String c3 (String c4 (String c5 (String c6 ""))))) +:+ String c (body +:+ ";"))
      as ->.
    { change (String c1 (String c2 (String c3 (String c4 (String c5 (String c6 "")))))
              +:+ String c (body +:+ ";"))
        with (String c1 (String c2 (String c3 (String c4 (String c5
                (String c6 (String c (body +:+ ";")))))))).
      cbn [lstrip]. by rewrite Hc1. }
    exact (rstrip_semicolon_end
             (String c1 (String c2 (String c3 (String c4 (String c5
                (String c6 (String c body)))))))). }
  assert (find_keyword "SELECT" (matched +:+ String c (body +:+ ";"))
          = Some (matched, String c (body +:+ ";"))) as ->.
  { destruct matched as [|k m]; [discriminate Hlow|].
    change (String k m +:+ String c (body +:+ ";"))
      with (String k (m +:+ String c (body +:+ ";"))).
    cbn [find_keyword].
    change (String k (m +:+ String c (body +:+ ";")))
      with (String k m +:+ String c (body +:+ ";")).
    by rewrite Hkw. }
  by rewrite (until_semicolon_app body "" Hbody).
Qed.

(** ** The summary of a validated frame *)

(** The summary reads in the cell of a validated row the notes of the rules
    that fired on the row, in the order of the rules: the pieces that the
    summary loop takes from the cell are "Missing customer_id" when the id
    of the raw row is absent, "Missing name" when its name is absent, and so
    on down to "Outlier in balance" when the test of line 102 holds for the
    raw balance, and nothing else. *)
Theorem summary_reads_validator_notes str_of_num to_datetime_ok raw out i row row' :
  validate_frame str_of_num to_datetime_ok raw = Ret out ->
  rows raw !! i = Some row -> rows out !! i = Some row' ->
  exists val bad above,
    validation_issues row' = Str val
    /\ balance_is_bad (balance row) = Ret bad
    /\ balance_is_outlier (threshold_of raw) (balance row) = Ret above
    /\ issue_pieces val
       = when (isna (customer_id row)) "Missing customer_id" ++
         when (isna (name row)) "Missing name" ++
         when (isna (surname row)) "Missing surname" ++
         when (isna (gender row)) "Missing gender" ++
         when (isna (region row)) "Missing region" ++
         when (isna (job_classification row)) "Missing job_classification" ++
         when (isna (age row)) "Missing age" ++
         when bad "Missing or negative balance" ++
         when (negb (to_datetime_ok (date_joined row))) "Bad date format" ++
         when above "Outlier in balance".
Proof.
  intros Hrun Hrow Hout.
  destruct (validate_frame_row str_of_num to_datetime_ok raw out i row Hrun Hrow)
    as (e & new_id & avg_age & bad & above & _ & Hout' & Hbad & Habove & _).
  rewrite Hout in Hout'. injection Hout' as ->.
  exists (join "; " (issues_of to_datetime_ok row bad above)), bad, above.
  split; [reflexivity|]. split; [exact Hbad|]. split; [exact Habove|].
  apply issue_pieces_join, issues_of_plain.
Qed.

Lemma summary_reads_validator_notes_witness :
  exists val bad above,
    Str "Missing or negative balance" = Str val
    /\ balance_is_bad NA = Ret bad
    /\ balance_is_outlier (threshold_of revalidation_frame) NA = Ret above
    /\ issue_pieces val
       = [] ++ [] ++ [] ++ [] ++ [] ++ [] ++ [] ++
         when bad "Missing or negative balance" ++ [] ++ when above "Outlier in balance".
Proof.
  exact (summary_reads_validator_notes
           sample_str_of_num sample_to_datetime_ok revalidation_frame
           (output_of revalidation_frame) 1
           (set_balance NA clean_row)
           (set_derived (Str "Missing or negative balance")
                        (Str "Filled balance with 0")
                        (set_balance (Num 0%float) clean_row))
           ltac:(vm_compute; reflexivity) ltac:(vm_compute; reflexivity)
           ltac:(vm_compute; reflexivity)).
Defined.

(** A row receives the note "Outlier in balance" exactly when the threshold
    computed before the loop is true in Python's sense (the column is numeric
    and its 99th percentile is not zero) and the raw balance of the row
    exceeds it.  The note comes without a fix text: the issue cell of the
    row holds one note more than its fix cell when the row is an outlier,
    and as many otherwise.  The notes of a cell are its pieces between
    semicolons, stripped, as the summary takes them. *)
Theorem outlier_note_iff str_of_num to_datetime_ok raw out i row row' :
  validate_frame str_of_num to_datetime_ok raw = Ret out ->
  rows raw !! i = Some row -> rows out !! i = Some row' ->
  exists issue_text fix_text above,
    validation_issues row' = Str issue_text
    /\ fix_suggestions row' = Str fix_text
    /\ balance_is_outlier (threshold_of raw) (balance row) = Ret above
    /\ ("Outlier in balance" ∈ issue_pieces issue_text <-> above = true)
    /\ length (issue_pieces issue_text)
       = length (issue_pieces fix_text) + (if above then 1 else 0).
Proof.
  intros Hrun Hrow Hout.
  destruct (validate_frame_row str_of_num to_datetime_ok raw out i row Hrun Hrow)
    as (e & new_id & avg_age & bad & above & _ & Hout' & _ & Habove & _ & Hid).
  rewrite Hout in Hout'. injection Hout' as ->.
  exists (join "; " (issues_of to_datetime_ok row bad above)),
    (join "; " (fixes_of to_datetime_ok row new_id avg_age bad)), above.
  split; [reflexivity|]. split; [reflexivity|]. split; [exact Habove|].
  rewrite (issue_pieces_join _ (issues_of_plain to_datetime_ok row bad above)).
  rewrite (issue_pieces_join (fixes_of to_datetime_ok row new_id avg_age bad)).
  2:{ apply fixes_of_plain. intros Hna. destruct (Hid Hna) as (n & _ & ->). eauto. }
  split.
  - unfold issues_of. rewrite !elem_of_app, !elem_of_when. split.
    + intros [[_ [=]]|[[_ [=]]|[[_ [=]]|[[_ [=]]|[[_ [=]]|[[_ [=]]|[[_ [=]]|[[_ [=]]|
        [[_ [=]]|[H _]]]]]]]]]]; exact H.
    + intros ->. do 9 right. done.
  - unfold issues_of, fixes_of. rewrite !length_app, !length_when.
    repeat match goal with
           | |- context [if ?b then 1 else 0] =>
               let n := fresh "n" in generalize (if b then 1 else 0); intros n
           end.
    lia.
Qed.

Lemma outlier_note_iff_witness :
  exists (issue_text fix_text : string) (above : bool),
    Str "Outlier in balance" = Str issue_text
    /\ Str "" = Str fix_text
    /\ balance_is_outlier (threshold_of outlier_frame) (Num 1000%float) = Ret above
    /\ ("Outlier in balance" ∈ issue_pieces issue_text <-> above = true)
    /\ length (issue_pieces issue_text)
       = length (issue_pieces fix_text) + (if above then 1 else 0).
Proof.
  exact (outlier_note_iff
           sample_str_of_num sample_to_datetime_ok outlier_frame
           (output_of outlier_frame) 4
           (set_balance (Num 1000%float) clean_row)
           (set_derived (Str "Outlier in balance") (Str "")
                        (set_balance (Num 1000%float) clean_row))
           ltac:(vm_compute; reflexivity) ltac:(vm_compute; reflexivity)
           ltac:(vm_compute; reflexivity)).
Defined.
